(** * binwalk.core.module: the module orchestration core, embedded in Rocq

    The Python classes of [src/binwalk/core/module.py] are modelled here:
    [Option], [Kwarg], [Result], [Error], [Module], [Status] and [Modules].
    Python dictionaries that are built at run time are [gmap]s; dictionaries
    that are class-level literals and only iterated ([Option.kwargs],
    [Module.DEPENDS]) are association lists in iteration order.  Raised
    exceptions are explicit: every function that can raise returns an
    [outcome]. *)

From stdpp Require Import gmap strings list fin_maps.
From Stdlib Require Import ZArith Ascii String.

Local Open Scope string_scope.
Local Open Scope list_scope.
Local Open Scope Z_scope.

(** ** Exceptions *)

(** The exception classes that the module distinguishes.  [KeyboardInterrupt],
    [SystemExit] and [GeneratorExit] derive from [BaseException] only; all the
    others derive from [Exception], [DependencyError] included
    ([class DependencyError(Exception)]). *)
Inductive exn :=
| KeyboardInterrupt
| SystemExit
| GeneratorExit
| DependencyError (msg : string)
| ValueError
| TypeError
| AttributeError
| IndexError
| KeyError
| Exception (msg : string).

(** What an [except Exception] clause matches. *)
Definition isinstance_Exception (e : exn) : bool :=
  match e with
  | KeyboardInterrupt | SystemExit | GeneratorExit => false
  | _ => true
  end.

(** What an [except KeyboardInterrupt] clause matches. *)
Definition isinstance_KeyboardInterrupt (e : exn) : bool :=
  match e with
  | KeyboardInterrupt => true
  | _ => false
  end.

Inductive outcome (A : Type) :=
| Ok (a : A)
| Raise (e : exn).
Arguments Ok {A} a.
Arguments Raise {A} e.

(** Sequencing: an exception raised by the first computation skips the
    second ([x ← c; k] below). *)
#[global] Instance outcome_ret : MRet outcome := fun A a => Ok a.
#[global] Instance outcome_bind : MBind outcome := fun A B f x =>
  match x with
  | Ok a => f a
  | Raise e => Raise e
  end.

(** A [for] loop whose body may raise: the first exception ends the loop. *)
Fixpoint for_each {A S} (body : A -> S -> outcome S) (l : list A) (s : S)
  : outcome S :=
  match l with
  | [] => Ok s
  | a :: l' =>
      match body a s with
      | Ok s' => for_each body l' s'
      | Raise e => Raise e
      end
  end.

(** ** Python values *)

(** The values that flow through keyword arguments and result attributes.
    A float is carried as its binary64 bit pattern; a module instance is a
    reference [VObj cls id], where [id] tells two instances of one class
    apart; a file object is reduced to the three members [Module.result]
    reads. *)
#[warnings="-register-all"]
Inductive pyval :=
| VNone
| VBool (b : bool)
| VInt (z : Z)
| VFloat (bits : Z)
| VStr (s : string)
| VList (l : list pyval)
| VDict (d : list (Z * pyval))
| VFile (length tell offset : Z)
| VObj (cls : string) (id : nat).

(** Truth value of an object in an [if]. *)
Definition py_truthy (v : pyval) : bool :=
  match v with
  | VNone => false
  | VBool b => b
  | VInt z => negb (z =? 0)
  | VFloat bits => negb ((bits =? 0) || (bits =? 2 ^ 63))
  | VStr s => negb (String.eqb s "")
  | VList l => match l with [] => false | _ => true end
  | VDict d => match d with [] => false | _ => true end
  | VFile _ _ _ => true
  | VObj _ _ => true
  end.

(** [v in [None, False]]: list membership compares with [==], and
    [0 == False] holds for the numeric zeros. *)
Definition in_None_False (v : pyval) : bool :=
  match v with
  | VNone => true
  | VBool b => negb b
  | VInt z => z =? 0
  | VFloat bits => (bits =? 0) || (bits =? 2 ^ 63)
  | _ => false
  end.

(** [v in [True, False, None]]. *)
Definition in_True_False_None (v : pyval) : bool :=
  match v with
  | VNone => true
  | VBool _ => true
  | VInt z => (z =? 0) || (z =? 1)
  | VFloat bits => (bits =? 0) || (bits =? 2 ^ 63) || (bits =? 4607182418800017408)
  | _ => false
  end.

(** ** [int(value, 0)] *)

Definition digit_value (c : ascii) : option Z :=
  let n := Z.of_nat (nat_of_ascii c) in
  if (48 <=? n) && (n <=? 57) then Some (n - 48)
  else if (97 <=? n) && (n <=? 122) then Some (n - 97 + 10)
  else if (65 <=? n) && (n <=? 90) then Some (n - 65 + 10)
  else None.

Fixpoint parse_digits (base : Z) (acc : Z) (l : list ascii) : option Z :=
  match l with
  | [] => Some acc
  | c :: l' =>
      match digit_value c with
      | Some d => if d <? base then parse_digits base (acc * base + d) l' else None
      | None => None
      end
  end.

Definition is_space (c : ascii) : bool :=
  let n := nat_of_ascii c in
  (Nat.eqb n 32) || ((Nat.leb 9 n) && (Nat.leb n 13)).

Fixpoint lstrip (l : list ascii) : list ascii :=
  match l with
  | c :: l' => if is_space c then lstrip l' else l
  | [] => []
  end.

Definition strip (l : list ascii) : list ascii :=
  rev (lstrip (rev (lstrip l))).

Definition lower (c : ascii) : ascii :=
  let n := nat_of_ascii c in
  if (Nat.leb 65 n) && (Nat.leb n 90) then ascii_of_nat (n + 32) else c.

Definition all_zero (l : list ascii) : bool :=
  forallb (fun c => Ascii.eqb c "0"%char) l.

(** The digits after the sign: a [0x], [0o] or [0b] prefix (either case)
    selects the base; otherwise the literal is decimal, and a decimal literal
    with a leading zero is accepted only when it is zero (Python 3; Python 2
    reads such a literal as octal and also accepts a trailing [L], neither of
    which is modelled, nor the digit-group underscores of Python 3.6). *)
Definition parse_unsigned (l : list ascii) : option Z :=
  match l with
  | [] => None
  | z :: p :: ds =>
      if Ascii.eqb z "0"%char then
        if Ascii.eqb (lower p) "x"%char then
          match ds with [] => None | _ => parse_digits 16 0 ds end
        else if Ascii.eqb (lower p) "o"%char then
          match ds with [] => None | _ => parse_digits 8 0 ds end
        else if Ascii.eqb (lower p) "b"%char then
          match ds with [] => None | _ => parse_digits 2 0 ds end
        else if all_zero (p :: ds) then Some 0
        else None
      else parse_digits 10 0 l
  | _ => parse_digits 10 0 l
  end.

Definition int_base0_of_string (s : string) : option Z :=
  match strip (list_ascii_of_string s) with
  | c :: l' =>
      if Ascii.eqb c "-"%char then Z.opp <$> parse_unsigned l'
      else if Ascii.eqb c "+"%char then parse_unsigned l'
      else parse_unsigned (c :: l')
  | [] => None
  end.

(** [int(value, 0)]: only text can be converted with an explicit base. *)
Definition py_int_base0 (value : pyval) : outcome Z :=
  match value with
  | VStr s =>
      match int_base0_of_string s with
      | Some z => Ok z
      | None => Raise ValueError
      end
  | _ => Raise TypeError
  end.

(** ** Descriptor classes *)

(** [module_option.type]: the accepted data type of an option, [None] for a
    flag that takes no value. *)
Inductive option_type :=
| TNone | TFileIO | TFileType | TBlockFile
| TInt | TFloat | TStr | TDict | TList.

#[global] Instance option_type_eq_dec : EqDecision option_type.
Proof. solve_decision. Defined.

(** [class Option].  An absent [short] or [long] is the empty string. *)
Module Option.
Record t := Build {
  kwargs : list (string * pyval);
  priority : Z;
  description : string;
  short : string;
  long : string;
  type : option_type;
  dtype : string
}.

(** [Option.__init__]: the displayed type defaults to a name derived from
    [type]. *)
Definition __init__ (kwargs : list (string * pyval)) (priority : Z)
    (description short long : string) (type : option_type) (dtype : string) : t :=
  let dtype :=
    if String.eqb dtype "" then
      match type with
      | TFileIO | TFileType | TBlockFile => "file"
      | TInt => "int"
      | TFloat => "float"
      | TStr => "str"
      | _ => "str"
      end
    else dtype in
  Build kwargs priority description short long type dtype.
End Option.

(** [class Kwarg]. *)
Module Kwarg.
Record t := Build {
  name : string;
  default : pyval;
  description : string
}.
End Kwarg.

(** [class Result]: an object whose attributes are set from keyword
    arguments, hence an attribute dictionary. *)
Abbreviation Result := (gmap string pyval).

Definition Result_defaults : Result :=
  <["offset" := VInt 0]> (<["description" := VStr ""]> (<["file" := VNone]>
  (<["valid" := VBool true]> (<["display" := VBool true]>
  (<["extract" := VBool true]> ∅))))).

(** [Result.__init__]: the six defaults, then every keyword set over them. *)
Definition Result_init (kwargs : gmap string pyval) : Result :=
  kwargs ∪ Result_defaults.

(** Truth value of the attribute [name] of [r] (an absent attribute cannot be
    read: [None] here). *)
Definition attr_truthy (r : Result) (name : string) : option bool :=
  py_truthy <$> r !! name.

(** [class Error(Result)]: a [Result] with the attribute [exception], and
    the attribute [module] that [Module.error] adds (the reporting module,
    kept as its class name). *)
Record Error := {
  err_result : Result;
  exception : option exn;
  err_module : string
}.

(** [class Status], as [Modules.__init__] builds it:
    [Status(completed=0, total=0)]. *)
Record Status := {
  completed : Z;
  total : Z
}.

(** [Status.clear]: every attribute back to its constructor keyword. *)
Definition Status_clear (_ : Status) : Status :=
  {| completed := 0; total := 0 |}.

(** Calls received by the display collaborator [self.config.display], which
    is outside this file: the model records them in order. *)
Inductive display_call :=
| SetQuiet
| SetLogNone
| FormatStrings (header_format result_format : string)
| DisplayResult (args : list pyval).

(** ** Module instances and module classes *)

(** The state of one [Module] instance.  [errors], [results], [status] and
    [name] are the attributes that [Module.__init__] assigns first; [attrs]
    holds the attributes that [Modules.kwargs] sets; [display] is what the
    instance has sent to [self.config.display]; [obj_id] is the identity of
    the object. *)
Record Instance := {
  name : string;
  obj_id : nat;
  errors : list Error;
  results : list Result;
  status : option Status;
  attrs : gmap string pyval;
  display : list display_call
}.

Definition set_errors (v : list Error) (self : Instance) : Instance :=
  {| name := name self; obj_id := obj_id self; errors := v; results := results self;
     status := status self; attrs := attrs self; display := display self |}.
Definition set_results (v : list Result) (self : Instance) : Instance :=
  {| name := name self; obj_id := obj_id self; errors := errors self; results := v;
     status := status self; attrs := attrs self; display := display self |}.
Definition set_status (v : option Status) (self : Instance) : Instance :=
  {| name := name self; obj_id := obj_id self; errors := errors self;
     results := results self; status := v; attrs := attrs self;
     display := display self |}.
Definition set_attrs (v : gmap string pyval) (self : Instance) : Instance :=
  {| name := name self; obj_id := obj_id self; errors := errors self;
     results := results self; status := status self; attrs := v;
     display := display self |}.
Definition set_display (v : list display_call) (self : Instance) : Instance :=
  {| name := name self; obj_id := obj_id self; errors := errors self;
     results := results self; status := status self; attrs := attrs self;
     display := v |}.

(** An overridable method of a module: it may change the instance and it
    returns or raises. *)
Definition method (A : Type) : Type := Instance -> outcome A * Instance.

(** A [Module] subclass: the class attributes of [class Module] and the
    methods a subclass overrides.  [callback], [validate] and the plugins'
    per-result callback act on the [Result] they are given.  The [plugins_*]
    fields are the four entry points of [binwalk.core.plugin.Plugins], which
    is outside this file.  [class_attrs] lists the further names the subclass
    defines at class level. *)
Record ModuleClass := {
  __name__ : string;
  TITLE : string;
  CLI : list Option.t;
  KWARGS : option (list Kwarg.t);
  DEPENDS : option (list (string * string));
  HEADER_FORMAT : string;
  RESULT_FORMAT : string;
  RESULT : pyval;
  class_attrs : list string;
  load : method unit;
  init : method unit;
  run : method pyval;
  callback : Result -> outcome Result;
  validate : Result -> outcome Result;
  plugins_load_plugins : method unit;
  plugins_pre_scan_callbacks : method unit;
  plugins_post_scan_callbacks : method unit;
  plugins_scan_callbacks : Result -> outcome Result
}.

(** The methods of [class Module] itself. *)
Definition Module_load : method unit := fun self => (Ok (), self).
Definition Module_init_hook : method unit := fun self => (Ok (), self).
Definition Module_run : method pyval := fun self => (Ok (VBool false), self).
Definition Module_callback (r : Result) : outcome Result := Ok r.
Definition Module_validate (r : Result) : outcome Result :=
  Ok (<["valid" := VBool true]> r).

(** [Module.DEPENDS] and [Module.RESULT] as [class Module] declares them. *)
Definition Module_DEPENDS : list (string * string) :=
  [("config", "Configuration"); ("extractor", "Extractor")].
Definition Module_RESULT : pyval := VList [VStr "offset"; VStr "description"].

(** The names [class Module] defines at class level (the names of the form
    [__x__] that every object carries are left out). *)
Definition Module_class_attrs : list string :=
  ["TITLE"; "CLI"; "KWARGS"; "DEPENDS"; "HEADER_FORMAT"; "RESULT_FORMAT";
   "HEADER"; "RESULT"; "load"; "init"; "run"; "callback"; "validate";
   "_plugins_pre_scan"; "_plugins_post_scan"; "_plugins_result";
   "_build_display_args"; "result"; "error"; "header"; "footer"; "main"].

(** The attributes [Module.__init__] assigns before it processes its
    keyword arguments. *)
Definition Module_init_attrs : list string :=
  ["errors"; "results"; "status"; "name"; "plugins"].

(** Whether [k] names one of the attributes every instance of [m] has from
    its class or from the first lines of [Module.__init__]. *)
Definition has_class_attr (m : ModuleClass) (k : string) : bool :=
  bool_decide (k ∈ Module_init_attrs)
  || bool_decide (k ∈ Module_class_attrs)
  || bool_decide (k ∈ class_attrs m).

(** [hasattr(self, k)] for an instance [self] of [m]. *)
Definition hasattr (m : ModuleClass) (self : Instance) (k : string) : bool :=
  bool_decide (is_Some (attrs self !! k)) || has_class_attr m k.

(** What the interpreter and the libraries supply: [float(value)], the text
    [%s] formats a value to, [argparse]'s [parse_known_args] for a parser
    holding the given options (it returns the dictionary of the parsed
    arguments and the unrecognised tokens), and [sys.argv[1:]]. *)
Record Runtime := {
  py_float : pyval -> outcome pyval;
  py_str : pyval -> string;
  parse_known_args :
    list Option.t -> list string -> outcome (gmap string pyval * list string);
  sys_argv : list string
}.

(** ** [Modules.argv] *)

(** The options [argv] registers with the parser: those of every module
    with a [CLI] attribute, an option without a long name being skipped. *)
Definition parser_options (modules : list ModuleClass) : list Option.t :=
  flat_map (fun m => filter (fun o => Option.long o ≠ "") (CLI m)) modules.

(** [kwargs[name][len(kwargs[name])] = value]. *)
Definition dict_store_at_len (cur : pyval) (value : pyval) : outcome pyval :=
  match cur with
  | VDict d =>
      let k := Z.of_nat (List.length d) in
      if bool_decide (k ∈ d.*1)
      then Ok (VDict (map (fun kv => if fst kv =? k then (k, value) else kv) d))
      else Ok (VDict (d ++ [(k, value)]))
  | VList _ => Raise IndexError
  | _ => Raise TypeError
  end.

(** [kwargs[name].append(value)]. *)
Definition list_append (cur : pyval) (value : pyval) : outcome pyval :=
  match cur with
  | VList l => Ok (VList (l ++ [value]))
  | _ => Raise AttributeError
  end.

(** The state of the loop of [argv]: [kwargs] and [last_priority]. *)
Definition argv_state : Type := gmap string pyval * gmap string Z.

(** The body of [for (name, value) in iterator(module_option.kwargs)]. *)
Definition argv_store (rt : Runtime) (args : gmap string pyval)
    (module_option : Option.t) (entry : string * pyval) (st : argv_state)
  : outcome argv_state :=
  let '(name, value) := entry in
  let '(kwargs, last_priority) := st in
  if match last_priority !! name with
     | None => true
     | Some p => p <=? Option.priority module_option
     end
  then
    let value :=
      if decide (Option.type module_option = TNone) then value
      else default VNone (args !! Option.long module_option) in
    let last_priority := <[name := Option.priority module_option]> last_priority in
    match Option.type module_option with
    | TInt =>
        z ← py_int_base0 value;
        Ok (<[name := VInt z]> kwargs, last_priority)
    | TFloat =>
        f ← py_float rt value;
        Ok (<[name := f]> kwargs, last_priority)
    | TDict =>
        d ← dict_store_at_len (default (VDict []) (kwargs !! name)) value;
        Ok (<[name := d]> kwargs, last_priority)
    | TList =>
        l ← list_append (default (VList []) (kwargs !! name)) value;
        Ok (<[name := l]> kwargs, last_priority)
    | _ => Ok (<[name := value]> kwargs, last_priority)
    end
  else Ok st.

Arguments argv_store : simpl never.

(** Whether the parsed arguments hold a value for the option:
    [has_key(args, long) and args[long] not in [None, False]]. *)
Definition supplied (args : gmap string pyval) (module_option : Option.t) : bool :=
  match args !! Option.long module_option with
  | Some v => negb (in_None_False v)
  | None => false
  end.

(** The body of [for module_option in module.CLI]. *)
Definition argv_option (rt : Runtime) (args : gmap string pyval)
    (unknown : list string) (module_option : Option.t) (st : argv_state)
  : outcome argv_state :=
  if decide (Option.type module_option = TBlockFile) then
    Ok (foldl (fun kwargs k => <[k := VList (VStr <$> unknown)]> kwargs)
              st.1 (Option.kwargs module_option).*1, st.2)
  else if supplied args module_option then
    for_each (argv_store rt args module_option) (Option.kwargs module_option) st
  else Ok st.

Arguments argv_option : simpl never.

(** [Modules.argv(module, argv)], [modules] being [self.list(attribute="CLI")]. *)
Definition Modules_argv (rt : Runtime) (modules : list ModuleClass)
    (module : ModuleClass) (argv : list string) : outcome (gmap string pyval) :=
  '(args, unknown) ← parse_known_args rt (parser_options modules) argv;
  st ← for_each (argv_option rt args unknown) (CLI module) (∅, ∅);
  let kwargs := st.1 in
  if bool_decide (is_Some (kwargs !! "enabled")) then Ok kwargs
  else Ok (<["enabled" := VBool false]> kwargs).

(** ** [Modules.kwargs] and [process_kwargs] *)

(** [setattr(module, k, v)] for the attributes that keyword processing sets.
    (A keyword named like one of the five attributes of [Module_init_attrs]
    would replace that attribute in Python; such a [KWARGS] entry is outside
    this model, which keeps those five apart.) *)
Definition setattr (self : Instance) (k : string) (v : pyval) : Instance :=
  set_attrs (<[k := v]> (attrs self)) self.

(** The body of [for module_argument in module.KWARGS]. *)
Definition kwargs_assign (kwargs : gmap string pyval) (self : Instance)
    (module_argument : Kwarg.t) : Instance :=
  let arg_value :=
    match kwargs !! Kwarg.name module_argument with
    | Some v => v
    | None => Kwarg.default module_argument
    end in
  setattr self (Kwarg.name module_argument) arg_value.

(** The body of [for (k, v) in iterator(kwargs)]. *)
Definition kwargs_attach (m : ModuleClass) (k : string) (v : pyval)
    (self : Instance) : Instance :=
  if hasattr m self k then self else setattr self k v.

(** [Modules.kwargs(module, kwargs)]: [m] is the class of the instance
    [self]. *)
Definition Modules_kwargs (m : ModuleClass) (self : Instance)
    (kwargs : gmap string pyval) : outcome Instance :=
  match KWARGS m with
  | Some declared =>
      let self := foldl (kwargs_assign kwargs) self declared in
      Ok (map_fold (kwargs_attach m) self kwargs)
  | None =>
      Raise (Exception "binwalk.core.module.Modules.process_kwargs: no attribute 'KWARGS'")
  end.

Definition process_kwargs (m : ModuleClass) (obj : Instance)
    (kwargs : gmap string pyval) : outcome Instance :=
  Modules_kwargs m obj kwargs.

(** ** [class Module] *)

(** [Module.error(exception=..., **kwargs)]: the [Error] is always appended
    to [self.errors].  (What it writes to [sys.stderr] is not modelled.) *)
Definition Module_error (exception : option exn) (kwargs : gmap string pyval)
    (self : Instance) : Instance :=
  let e := {| err_result := Result_init kwargs; exception := exception;
              err_module := name self |} in
  set_errors (errors self ++ [e]) self.

(** Reaching [self.config.display]: the attribute [config] must be bound to
    an object. *)
Definition display_send (c : list display_call) : method unit := fun self =>
  match attrs self !! "config" with
  | Some (VObj _ _) => (Ok (), set_display (display self ++ c) self)
  | _ => (Raise AttributeError, self)
  end.

(** The instance as the first lines of [Module.__init__] leave it:
    [errors], [results], [status], [name] and [plugins] assigned. *)
Definition Module_new (m : ModuleClass) (oid : nat) : Instance :=
  {| name := __name__ m; obj_id := oid; errors := []; results := [];
     status := None; attrs := ∅; display := [] |}.

(** [Module.__init__(self, dependency=False, **kwargs)] up to its [try]
    statement, for an instance of class [m] with identity [oid]: the
    keyword arguments are processed and, for a dependency, the display is
    silenced. *)
Definition init_prologue (m : ModuleClass) (oid : nat)
    (kwargs : gmap string pyval) : outcome Instance :=
  let dependency :=
    match kwargs !! "dependency" with
    | Some v => py_truthy v
    | None => false
    end in
  let kwargs := delete "dependency" kwargs in
  self ← process_kwargs m (Module_new m oid) kwargs;
  if dependency then
    match display_send [SetQuiet; SetLogNone] self with
    | (Ok _, self) => Ok self
    | (Raise e, _) => Raise e
    end
  else Ok self.

(** The [try] statement of [Module.__init__]:
    [try: self.load() / except KeyboardInterrupt as e: raise e /
     except Exception as e: self.error(exception=e)]. *)
Definition try_load (m : ModuleClass) (self : Instance) : outcome Instance :=
  match load m self with
  | (Ok _, self) => Ok self
  | (Raise e, self) =>
      if isinstance_KeyboardInterrupt e then Raise e
      else if isinstance_Exception e then Ok (Module_error (Some e) ∅ self)
      else Raise e
  end.

(** [Module.__init__(self, dependency=False, **kwargs)]. *)
Definition Module___init__ (m : ModuleClass) (oid : nat)
    (kwargs : gmap string pyval) : outcome Instance :=
  self ← init_prologue m oid kwargs;
  self ← try_load m self;
  match plugins_load_plugins m self with
  | (Ok _, self) => Ok self
  | (Raise e, _) => Raise e
  end.

(** The statement that [Module.main] repeats three times:
    [try: body / except KeyboardInterrupt as e: raise e /
     except Exception as e: self.error(exception=e); return False]. *)
Inductive flow (A : Type) :=
| Continue (a : A)
| Return (v : pyval)
| Propagate (e : exn).
Arguments Continue {A} a.
Arguments Return {A} v.
Arguments Propagate {A} e.

Definition guarded {A} (body : outcome A * Instance) : flow A * Instance :=
  match body with
  | (Ok a, self) => (Continue a, self)
  | (Raise e, self) =>
      if isinstance_KeyboardInterrupt e then (Propagate e, self)
      else if isinstance_Exception e
           then (Return (VBool false), Module_error (Some e) ∅ self)
           else (Propagate e, self)
  end.

(** The calls [Module.main] makes, in the order made. *)
Inductive phase := PInit | PFormatStrings | PPreScan | PRun | PPostScan.

(** [Module.main(status)]: the value returned or the exception raised, the
    instance afterwards, and the calls made. *)
Definition Module_main (m : ModuleClass) (status : Status) (self : Instance)
  : outcome pyval * Instance * list phase :=
  let self := set_status (Some status) self in
  match guarded (init m self) with
  | (Return v, self) => (Ok v, self, [PInit])
  | (Propagate e, self) => (Raise e, self, [PInit])
  | (Continue _, self) =>
  match guarded (display_send [FormatStrings (HEADER_FORMAT m) (RESULT_FORMAT m)] self) with
  | (Return v, self) => (Ok v, self, [PInit; PFormatStrings])
  | (Propagate e, self) => (Raise e, self, [PInit; PFormatStrings])
  | (Continue _, self) =>
  match plugins_pre_scan_callbacks m self with
  | (Raise e, self) => (Raise e, self, [PInit; PFormatStrings; PPreScan])
  | (Ok _, self) =>
  match guarded (run m self) with
  | (Return v, self) => (Ok v, self, [PInit; PFormatStrings; PPreScan; PRun])
  | (Propagate e, self) => (Raise e, self, [PInit; PFormatStrings; PPreScan; PRun])
  | (Continue retval, self) =>
  match plugins_post_scan_callbacks m self with
  | (Raise e, self) =>
      (Raise e, self, [PInit; PFormatStrings; PPreScan; PRun; PPostScan])
  | (Ok _, self) =>
      (Ok retval, self, [PInit; PFormatStrings; PPreScan; PRun; PPostScan])
  end end end end end.

(** [getattr(binwalk.modules, name)]: the classes of [binwalk.modules] are
    known by their class names. *)
Definition lookup_module (modules : list ModuleClass) (n : string)
  : option ModuleClass :=
  List.find (fun m => String.eqb (__name__ m) n) modules.

(** Who is handed the [Result] in [Module.result]: [self.validate], the
    dependency bound to an attribute, the plugins. *)
Inductive participant :=
| Validate
| Callback (attribute : string)
| PluginsResult.

(** [getattr(self, attribute).callback(r)]. *)
Definition dependency_callback (modules : list ModuleClass) (self : Instance)
    (attribute : string) (r : Result) : outcome Result :=
  match attrs self !! attribute with
  | Some (VObj cls _) =>
      match lookup_module modules cls with
      | Some dependency => callback dependency r
      | None => Raise AttributeError
      end
  | _ => Raise AttributeError
  end.

(** Hands [r] to each participant in turn; also returns who was called, and
    with what. *)
Fixpoint run_chain (chain : list (participant * (Result -> outcome Result)))
    (r : Result) : outcome Result * list (participant * Result) :=
  match chain with
  | [] => (Ok r, [])
  | (p, f) :: chain' =>
      match f r with
      | Ok r' => let '(o, calls) := run_chain chain' r' in (o, (p, r) :: calls)
      | Raise e => (Raise e, [(p, r)])
      end
  end.

(** The first lines of [Module.result]: [self.validate(r)], then the
    [callback] of every dependency of [self.DEPENDS], then
    [self._plugins_result(r)]. *)
Definition result_chain (modules : list ModuleClass) (m : ModuleClass)
    (self : Instance) (depends : list (string * string))
  : list (participant * (Result -> outcome Result)) :=
  (Validate, validate m)
  :: map (fun d => (Callback d.1, dependency_callback modules self d.1)) depends
  ++ [(PluginsResult, plugins_scan_callbacks m)].

(** [Module._build_display_args(r)]. *)
Definition build_display_args (m : ModuleClass) (r : Result)
  : outcome (list pyval) :=
  if py_truthy (RESULT m) then
    let result := match RESULT m with VList l => l | v => [v] end in
    for_each (fun name args =>
                match name with
                | VStr n =>
                    match r !! n with
                    | Some v => Ok (args ++ [v])
                    | None => Raise AttributeError
                    end
                | _ => Raise TypeError
                end) result []
  else Ok [].

(** The progress update of [Module.result], done when the module does not
    track its progress itself. *)
Definition update_progress (r : Result) : method unit := fun self =>
  match r !! "file" with
  | None => (Raise AttributeError, self)
  | Some f =>
      if py_truthy f then
        match status self with
        | None => (Raise AttributeError, self)
        | Some st =>
            if total st =? 0 then
              match f with
              | VFile length tell offset =>
                  (Ok (), set_status (Some {| completed := tell - offset;
                                              total := length |}) self)
              | _ => (Raise AttributeError, self)
              end
            else (Ok (), self)
        end
      else (Ok (), self)
  end.

(** What [Module.result] does with [r] once the participants are through. *)
Definition store_and_display (m : ModuleClass) (r : Result) : method unit :=
  fun self =>
  match attr_truthy r "valid" with
  | None => (Raise AttributeError, self)
  | Some false => (Ok (), self)
  | Some true =>
      let self := set_results (results self ++ [r]) self in
      match update_progress r self with
      | (Raise e, self) => (Raise e, self)
      | (Ok _, self) =>
          match attr_truthy r "display" with
          | None => (Raise AttributeError, self)
          | Some false => (Ok (), self)
          | Some true =>
              match build_display_args m r with
              | Raise e => (Raise e, self)
              | Ok [] => (Ok (), self)
              | Ok display_args => display_send [DisplayResult display_args] self
              end
          end
      end
  end.

(** [Module.result(r=None, **kwargs)]: the outcome, the instance afterwards,
    and the participants called. *)
Definition Module_result (modules : list ModuleClass) (m : ModuleClass)
    (r : option Result) (kwargs : gmap string pyval) (self : Instance)
  : outcome unit * Instance * list (participant * Result) :=
  let r := match r with Some r => r | None => Result_init kwargs end in
  match DEPENDS m with
  | None =>
      match validate m r with
      | Ok _ => (Raise AttributeError, self, [(Validate, r)])
      | Raise e => (Raise e, self, [(Validate, r)])
      end
  | Some depends =>
      match run_chain (result_chain modules m self depends) r with
      | (Raise e, calls) => (Raise e, self, calls)
      | (Ok r, calls) => (store_and_display m r self, calls)
      end
  end.

(** ** [class Modules] *)

(** Throughout, [modules] stands for the classes of [binwalk.modules], in
    the order of [inspect.getmembers] (by name).  They are all subclasses of
    [Module], so all of them have the attributes [run] and [CLI]:
    [self.list()] and [self.list(attribute="CLI")] both return this list,
    and a name of [DEPENDS] is looked up in it. *)

(** The state of the orchestrator.  [constructed] is not a Python attribute:
    it records, in order, the class of every constructor call made by
    [Modules.load]. *)
Record Modules := {
  arguments : list string;
  loaded_modules : gmap string Instance;
  modules_status : Status;
  constructed : list string
}.

Definition set_arguments (v : list string) (self : Modules) : Modules :=
  {| arguments := v; loaded_modules := loaded_modules self;
     modules_status := modules_status self; constructed := constructed self |}.
Definition set_loaded_modules (v : gmap string Instance) (self : Modules) : Modules :=
  {| arguments := arguments self; loaded_modules := v;
     modules_status := modules_status self; constructed := constructed self |}.
Definition set_modules_status (v : Status) (self : Modules) : Modules :=
  {| arguments := arguments self; loaded_modules := loaded_modules self;
     modules_status := v; constructed := constructed self |}.
Definition set_constructed (v : list string) (self : Modules) : Modules :=
  {| arguments := arguments self; loaded_modules := loaded_modules self;
     modules_status := modules_status self; constructed := v |}.

(** [Modules._parse_api_opt]. *)
Definition Modules_parse_api_opt (opt : string) : string :=
  if String.prefix "-" opt then opt
  else if Nat.eqb (String.length opt) 1 then String.append "-" opt
  else String.append "--" opt.

(** [Modules._set_arguments(argv, kargv)]. *)
Definition Modules_set_arguments (rt : Runtime) (argv : list string)
    (kargv : list (string * pyval)) (self : Modules) : Modules :=
  let argv :=
    foldl (fun argv kv =>
             let k := Modules_parse_api_opt kv.1 in
             if in_True_False_None kv.2 then argv ++ [k]
             else argv ++ [String.append k (String.append " " (py_str rt kv.2))])
          argv kargv in
  match argv, arguments self with
  | [], [] => set_arguments (sys_argv rt) self
  | [], _ => self
  | _, _ => set_arguments argv self
  end.

(** [Modules.__init__], given its positional and keyword arguments. *)
Definition Modules___init__ (rt : Runtime) (argv : list string)
    (kargv : list (string * pyval)) : Modules :=
  Modules_set_arguments rt argv kargv
    {| arguments := []; loaded_modules := ∅;
       modules_status := {| completed := 0; total := 0 |}; constructed := [] |}.

(** A method of [Modules] that can reach [Modules.run]: [None] when the
    recursion of [run] through [dependencies] is cut off by the fuel. *)
Definition M (A : Type) : Type := Modules -> option (outcome A * Modules).

(** [obj.enabled]. *)
Definition enabled (obj : Instance) : outcome bool :=
  match attrs obj !! "enabled" with
  | Some v => Ok (py_truthy v)
  | None => Raise AttributeError
  end.

(** The body of the loop of [Modules.dependencies], [run] standing for
    [self.run]. *)
Definition dependencies_step (modules : list ModuleClass)
    (run : ModuleClass -> M Instance) (module : ModuleClass)
    (entry : string * string) (kwargs : gmap string pyval)
  : M (gmap string pyval) := fun self =>
  let '(kwarg, dependency) := entry in
  match lookup_module modules dependency with
  | None => Some (Ok kwargs, self)
  | Some dependency =>
      if String.eqb (__name__ dependency) (__name__ module) then Some (Ok kwargs, self)
      else
        let resolved :=
          match loaded_modules self !! __name__ dependency with
          | Some _ => Some (Ok (), self)
          | None =>
              match run dependency self with
              | Some (Ok _, self) => Some (Ok (), self)
              | Some (Raise e, self) => Some (Raise e, self)
              | None => None
              end
          end in
        match resolved with
        | None => None
        | Some (Raise e, self) => Some (Raise e, self)
        | Some (Ok _, self) =>
            match loaded_modules self !! __name__ dependency with
            | None => Some (Raise KeyError, self)
            | Some obj =>
                match errors obj with
                | _ :: _ =>
                    Some (Raise (DependencyError
                                   (String.append "Failed to load " (__name__ dependency))),
                          self)
                | [] => Some (Ok (<[kwarg := VObj (name obj) (obj_id obj)]> kwargs), self)
                end
            end
        end
  end.

Arguments dependencies_step : simpl never.

Fixpoint dependencies_loop (modules : list ModuleClass)
    (run : ModuleClass -> M Instance) (module : ModuleClass)
    (depends : list (string * string)) (kwargs : gmap string pyval)
  : M (gmap string pyval) := fun self =>
  match depends with
  | [] => Some (Ok kwargs, self)
  | entry :: depends' =>
      match dependencies_step modules run module entry kwargs self with
      | Some (Ok kwargs, self) => dependencies_loop modules run module depends' kwargs self
      | other => other
      end
  end.

(** [Modules.dependencies(module)], [run] standing for [self.run]. *)
Definition dependencies_with (modules : list ModuleClass)
    (run : ModuleClass -> M Instance) (module : ModuleClass)
  : M (gmap string pyval) :=
  match DEPENDS module with
  | Some depends => dependencies_loop modules run module depends ∅
  | None => fun self => Some (Ok ∅, self)
  end.

(** The constructor call that ends [Modules.load]: [module] applied to
    the keyword arguments. *)
Definition construct (module : ModuleClass) (kwargs : gmap string pyval)
  : M Instance := fun self =>
  let oid := List.length (constructed self) in
  Some (Module___init__ module oid kwargs,
        set_constructed (constructed self ++ [__name__ module]) self).

(** [Modules.load(module)], [run] standing for [self.run]. *)
Definition load_with (rt : Runtime) (modules : list ModuleClass)
    (run : ModuleClass -> M Instance) (module : ModuleClass) : M Instance :=
  fun self =>
  match Modules_argv rt modules module (arguments self) with
  | Raise e => Some (Raise e, self)
  | Ok kwargs =>
      match dependencies_with modules run module self with
      | None => None
      | Some (Raise e, self) => Some (Raise e, self)
      | Some (Ok dependencies, self) => construct module (dependencies ∪ kwargs) self
      end
  end.

(** [Modules.run(module)].  Every class of [modules] is a subclass of
    [Module], so [isinstance(obj, binwalk.core.module.Module)] holds.
    [obj.main] is given the [Status] of the orchestrator itself, which
    [self.status.clear()] then resets: the instance and the orchestrator
    share it. *)
Fixpoint Modules_run (rt : Runtime) (modules : list ModuleClass) (fuel : nat)
    (module : ModuleClass) : M Instance := fun self =>
  match fuel with
  | O => None
  | S fuel =>
      match load_with rt modules (Modules_run rt modules fuel) module self with
      | None => None
      | Some (Raise e, self) => Some (Raise e, self)
      | Some (Ok obj, self) =>
          match enabled obj with
          | Raise e => Some (Raise e, self)
          | Ok false =>
              Some (Ok obj, set_loaded_modules
                              (<[__name__ module := obj]> (loaded_modules self)) self)
          | Ok true =>
              match Module_main module (modules_status self) obj with
              | (Raise e, obj, _) =>
                  Some (Raise e, set_modules_status
                                   (default (modules_status self) (status obj)) self)
              | (Ok _, obj, _) =>
                  let cleared := Status_clear (default (modules_status self) (status obj)) in
                  let obj := set_status (Some cleared) obj in
                  Some (Ok obj,
                        set_loaded_modules
                          (<[__name__ module := obj]> (loaded_modules self))
                          (set_modules_status cleared self))
              end
          end
      end
  end.

Definition Modules_load (rt : Runtime) (modules : list ModuleClass) (fuel : nat)
  : ModuleClass -> M Instance :=
  load_with rt modules (Modules_run rt modules fuel).

Definition Modules_dependencies (rt : Runtime) (modules : list ModuleClass)
    (fuel : nat) : ModuleClass -> M (gmap string pyval) :=
  dependencies_with modules (Modules_run rt modules fuel).

(** [for module in self.list(): obj = self.run(module)]. *)
Fixpoint run_all (rt : Runtime) (modules : list ModuleClass) (fuel : nat)
    (todo : list ModuleClass) : M unit := fun self =>
  match todo with
  | [] => Some (Ok (), self)
  | module :: todo' =>
      match Modules_run rt modules fuel module self with
      | None => None
      | Some (Raise e, self) => Some (Raise e, self)
      | Some (Ok _, self) => run_all rt modules fuel todo' self
      end
  end.

(** [if args or kwargs: self._set_arguments(list(args), kwargs)]. *)
Definition execute_arguments (rt : Runtime) (args : list string)
    (kwargs : list (string * pyval)) (self : Modules) : Modules :=
  match args, kwargs with
  | [], [] => self
  | _, _ => Modules_set_arguments rt args kwargs self
  end.

(** [Modules.execute], given its positional and keyword arguments;
    [modules] is what [self.list()] returns. *)
Definition Modules_execute (rt : Runtime) (modules : list ModuleClass)
    (fuel : nat) (args : list string) (kwargs : list (string * pyval))
  : M (list Instance) := fun self =>
  let orig_arguments := arguments self in
  let self := execute_arguments rt args kwargs self in
  match run_all rt modules fuel modules self with
  | None => None
  | Some (Raise e, self) => Some (Raise e, self)
  | Some (Ok _, self) =>
      match for_each (fun mo run_modules =>
                        b ← enabled mo.2;
                        Ok (if b : bool then run_modules ++ [mo.2] else run_modules))
                     (map_to_list (loaded_modules self)) [] with
      | Raise e => Some (Raise e, self)
      | Ok run_modules => Some (Ok run_modules, set_arguments orig_arguments self)
      end
  end.

(** ** Vocabulary of the statements about [Modules.argv] *)

(** Kinds whose value is stored by plain assignment: not the file kind,
    which takes the unrecognised tokens, and not the two kinds that
    accumulate. *)
Definition scalar_kind (t : option_type) : bool :=
  match t with
  | TBlockFile | TDict | TList => false
  | _ => true
  end.

(** What an option of a scalar kind assigns to a key it declares with the
    value [declared]. *)
Definition option_value (rt : Runtime) (args : gmap string pyval)
    (o : Option.t) (declared : pyval) : outcome pyval :=
  let value :=
    if decide (Option.type o = TNone) then declared
    else default VNone (args !! Option.long o) in
  match Option.type o with
  | TInt => z ← py_int_base0 value; Ok (VInt z)
  | TFloat => py_float rt value
  | _ => Ok value
  end.

(** The test of the priority rule. *)
Definition may_write (last : option Z) (o : Option.t) : bool :=
  match last with
  | None => true
  | Some p => p <=? Option.priority o
  end.

(** Neither the value nor the recorded priority of [name] changes. *)
Definition untouched (name : string) (st st' : argv_state) : Prop :=
  st'.1 !! name = st.1 !! name /\ st'.2 !! name = st.2 !! name.

(** ** Concrete classes and a concrete runtime *)

(** [class n(Module): pass]: every class attribute and method inherited. *)
Definition Module_subclass (n : string) : ModuleClass :=
  {| __name__ := n; TITLE := ""; CLI := []; KWARGS := Some [];
     DEPENDS := Some Module_DEPENDS;
     HEADER_FORMAT := "%s\n"; RESULT_FORMAT := "%.8d      %s\n";
     RESULT := Module_RESULT; class_attrs := [];
     load := Module_load; init := Module_init_hook; run := Module_run;
     callback := Module_callback; validate := Module_validate;
     plugins_load_plugins := fun self => (Ok (), self);
     plugins_pre_scan_callbacks := fun self => (Ok (), self);
     plugins_post_scan_callbacks := fun self => (Ok (), self);
     plugins_scan_callbacks := fun r => Ok r |}.

(** Overriding one class attribute or method of a class. *)
Definition with_CLI (v : list Option.t) (m : ModuleClass) : ModuleClass :=
  {| __name__ := __name__ m; TITLE := TITLE m; CLI := v; KWARGS := KWARGS m;
     DEPENDS := DEPENDS m; HEADER_FORMAT := HEADER_FORMAT m;
     RESULT_FORMAT := RESULT_FORMAT m; RESULT := RESULT m;
     class_attrs := class_attrs m; load := load m; init := init m; run := run m;
     callback := callback m; validate := validate m;
     plugins_load_plugins := plugins_load_plugins m;
     plugins_pre_scan_callbacks := plugins_pre_scan_callbacks m;
     plugins_post_scan_callbacks := plugins_post_scan_callbacks m;
     plugins_scan_callbacks := plugins_scan_callbacks m |}.
Definition with_KWARGS (v : list Kwarg.t) (m : ModuleClass) : ModuleClass :=
  {| __name__ := __name__ m; TITLE := TITLE m; CLI := CLI m; KWARGS := Some v;
     DEPENDS := DEPENDS m; HEADER_FORMAT := HEADER_FORMAT m;
     RESULT_FORMAT := RESULT_FORMAT m; RESULT := RESULT m;
     class_attrs := class_attrs m; load := load m; init := init m; run := run m;
     callback := callback m; validate := validate m;
     plugins_load_plugins := plugins_load_plugins m;
     plugins_pre_scan_callbacks := plugins_pre_scan_callbacks m;
     plugins_post_scan_callbacks := plugins_post_scan_callbacks m;
     plugins_scan_callbacks := plugins_scan_callbacks m |}.
Definition with_DEPENDS (v : list (string * string)) (m : ModuleClass) : ModuleClass :=
  {| __name__ := __name__ m; TITLE := TITLE m; CLI := CLI m; KWARGS := KWARGS m;
     DEPENDS := Some v; HEADER_FORMAT := HEADER_FORMAT m;
     RESULT_FORMAT := RESULT_FORMAT m; RESULT := RESULT m;
     class_attrs := class_attrs m; load := load m; init := init m; run := run m;
     callback := callback m; validate := validate m;
     plugins_load_plugins := plugins_load_plugins m;
     plugins_pre_scan_callbacks := plugins_pre_scan_callbacks m;
     plugins_post_scan_callbacks := plugins_post_scan_callbacks m;
     plugins_scan_callbacks := plugins_scan_callbacks m |}.
Definition with_load (v : method unit) (m : ModuleClass) : ModuleClass :=
  {| __name__ := __name__ m; TITLE := TITLE m; CLI := CLI m; KWARGS := KWARGS m;
     DEPENDS := DEPENDS m; HEADER_FORMAT := HEADER_FORMAT m;
     RESULT_FORMAT := RESULT_FORMAT m; RESULT := RESULT m;
     class_attrs := class_attrs m; load := v; init := init m; run := run m;
     callback := callback m; validate := validate m;
     plugins_load_plugins := plugins_load_plugins m;
     plugins_pre_scan_callbacks := plugins_pre_scan_callbacks m;
     plugins_post_scan_callbacks := plugins_post_scan_callbacks m;
     plugins_scan_callbacks := plugins_scan_callbacks m |}.
Definition with_init (v : method unit) (m : ModuleClass) : ModuleClass :=
  {| __name__ := __name__ m; TITLE := TITLE m; CLI := CLI m; KWARGS := KWARGS m;
     DEPENDS := DEPENDS m; HEADER_FORMAT := HEADER_FORMAT m;
     RESULT_FORMAT := RESULT_FORMAT m; RESULT := RESULT m;
     class_attrs := class_attrs m; load := load m; init := v; run := run m;
     callback := callback m; validate := validate m;
     plugins_load_plugins := plugins_load_plugins m;
     plugins_pre_scan_callbacks := plugins_pre_scan_callbacks m;
     plugins_post_scan_callbacks := plugins_post_scan_callbacks m;
     plugins_scan_callbacks := plugins_scan_callbacks m |}.
Definition with_run (v : method pyval) (m : ModuleClass) : ModuleClass :=
  {| __name__ := __name__ m; TITLE := TITLE m; CLI := CLI m; KWARGS := KWARGS m;
     DEPENDS := DEPENDS m; HEADER_FORMAT := HEADER_FORMAT m;
     RESULT_FORMAT := RESULT_FORMAT m; RESULT := RESULT m;
     class_attrs := class_attrs m; load := load m; init := init m; run := v;
     callback := callback m; validate := validate m;
     plugins_load_plugins := plugins_load_plugins m;
     plugins_pre_scan_callbacks := plugins_pre_scan_callbacks m;
     plugins_post_scan_callbacks := plugins_post_scan_callbacks m;
     plugins_scan_callbacks := plugins_scan_callbacks m |}.
Definition with_callback (v : Result -> outcome Result) (m : ModuleClass) : ModuleClass :=
  {| __name__ := __name__ m; TITLE := TITLE m; CLI := CLI m; KWARGS := KWARGS m;
     DEPENDS := DEPENDS m; HEADER_FORMAT := HEADER_FORMAT m;
     RESULT_FORMAT := RESULT_FORMAT m; RESULT := RESULT m;
     class_attrs := class_attrs m; load := load m; init := init m; run := run m;
     callback := v; validate := validate m;
     plugins_load_plugins := plugins_load_plugins m;
     plugins_pre_scan_callbacks := plugins_pre_scan_callbacks m;
     plugins_post_scan_callbacks := plugins_post_scan_callbacks m;
     plugins_scan_callbacks := plugins_scan_callbacks m |}.
Definition with_validate (v : Result -> outcome Result) (m : ModuleClass) : ModuleClass :=
  {| __name__ := __name__ m; TITLE := TITLE m; CLI := CLI m; KWARGS := KWARGS m;
     DEPENDS := DEPENDS m; HEADER_FORMAT := HEADER_FORMAT m;
     RESULT_FORMAT := RESULT_FORMAT m; RESULT := RESULT m;
     class_attrs := class_attrs m; load := load m; init := init m; run := run m;
     callback := callback m; validate := v;
     plugins_load_plugins := plugins_load_plugins m;
     plugins_pre_scan_callbacks := plugins_pre_scan_callbacks m;
     plugins_post_scan_callbacks := plugins_post_scan_callbacks m;
     plugins_scan_callbacks := plugins_scan_callbacks m |}.

(** A method that raises [e] and leaves the instance alone. *)
Definition raising {A} (e : exn) : method A := fun self => (Raise e, self).

(** The part of [argparse] the examples use: a token [--long] or [-short]
    that names a registered option sets it, a flag to [True], an option with
    a value to the next token (a missing value ends the program, as
    [argparse] does, with [SystemExit]); any other token is unrecognised.
    An option not given is [False] for a flag and [None] otherwise. *)
Definition parser_defaults (options : list Option.t) : gmap string pyval :=
  foldl (fun args o =>
           <[Option.long o := if decide (Option.type o = TNone)
                              then VBool false else VNone]> args) ∅ options.

Definition names_option (token : string) (o : Option.t) : bool :=
  String.eqb token (String.append "--" (Option.long o))
  || (negb (String.eqb (Option.short o) "")
      && String.eqb token (String.append "-" (Option.short o))).

Fixpoint parse_tokens (options : list Option.t) (tokens : list string)
    (acc : gmap string pyval * list string)
  : outcome (gmap string pyval * list string) :=
  match tokens with
  | [] => Ok acc
  | token :: rest =>
      match List.find (names_option token) options with
      | None => parse_tokens options rest (acc.1, acc.2 ++ [token])
      | Some o =>
          if decide (Option.type o = TNone)
          then parse_tokens options rest (<[Option.long o := VBool true]> acc.1, acc.2)
          else match rest with
               | value :: rest' =>
                   parse_tokens options rest'
                     (<[Option.long o := VStr value]> acc.1, acc.2)
               | [] => Raise SystemExit
               end
      end
  end.

(** A runtime for the examples; none of them converts to [float] or formats
    a value, so those two entries only cover the trivial cases. *)
Definition example_runtime : Runtime :=
  {| py_float := fun v => match v with
                          | VFloat _ => Ok v
                          | VStr _ => Raise ValueError
                          | _ => Raise TypeError
                          end;
     py_str := fun v => match v with VStr s => s | _ => "" end;
     parse_known_args := fun options tokens =>
       parse_tokens options tokens (parser_defaults options, []);
     sys_argv := [] |}.

(** The classes the examples below are built from. *)

(** Two flags of one module that set the same key with equal priorities, and
    an integer option. *)
Definition opt_alpha : Option.t :=
  Option.__init__ [("mode", VStr "first")] 5 "" "a" "alpha" TNone "".
Definition opt_beta : Option.t :=
  Option.__init__ [("mode", VStr "second")] 5 "" "b" "beta" TNone "".
Definition opt_low : Option.t :=
  Option.__init__ [("mode", VStr "low")] 10 "" "l" "low" TNone "".
Definition opt_high : Option.t :=
  Option.__init__ [("mode", VStr "high")] 50 "" "h" "high" TNone "".
Definition opt_offset : Option.t :=
  Option.__init__ [("offset", VInt 0)] 0 "" "o" "offset" TInt "".

(** Two options of the list kind that feed the same key. *)
Definition opt_include : Option.t :=
  Option.__init__ [("patterns", VNone)] 10 "" "i" "include" TList "".
Definition opt_only : Option.t :=
  Option.__init__ [("patterns", VNone)] 50 "" "y" "only" TList "".

Definition Scan : ModuleClass :=
  with_CLI [opt_alpha; opt_beta; opt_offset] (Module_subclass "Scan").
Definition Ranked : ModuleClass :=
  with_CLI [opt_high; opt_low] (Module_subclass "Ranked").

Definition Signature : ModuleClass :=
  with_KWARGS [Kwarg.Build "align" (VInt 1) "alignment of the scan";
               Kwarg.Build "verbose" (VBool false) "verbose output"]
    (Module_subclass "Signature").

(** Modules whose [load], [init] or [run] raises. *)
Definition FailingLoad (e : exn) : ModuleClass :=
  with_load (raising e) (Module_subclass "FailingLoad").
Definition FailingInit (e : exn) : ModuleClass :=
  with_init (raising e) (Module_subclass "FailingInit").
Definition FailingRun (e : exn) : ModuleClass :=
  with_run (raising e) (Module_subclass "FailingRun").

(** An instance of [m] that was given a configuration object. *)
Definition configured (m : ModuleClass) : Instance :=
  setattr (Module_new m 1) "config" (VObj "Configuration" 0).

Definition zero_status : Status := {| completed := 0; total := 0 |}.

(** A dependency with the inherited [callback], and one whose [callback]
    marks every result valid. *)
Definition Extractor : ModuleClass :=
  with_DEPENDS [] (Module_subclass "Extractor").
Definition Revalidating : ModuleClass :=
  with_callback (fun r => Ok (<["valid" := VBool true]> r)) Extractor.

(** Producers: one that inherits everything but depends on [Extractor]
    only, one whose [validate] rejects every result, one whose plugins
    reject every result, one that displays no column. *)
Definition Plain : ModuleClass :=
  with_DEPENDS [("extractor", "Extractor")] (Module_subclass "Plain").
Definition Rejecting : ModuleClass :=
  with_validate (fun r => Ok (<["valid" := VBool false]> r)) Plain.

(** An instance of [m] in its [run] phase, with its configuration and its
    extractor bound. *)
Definition wired (m : ModuleClass) : Instance :=
  set_status (Some zero_status)
    (setattr (configured m) "extractor" (VObj "Extractor" 2)).



(** The class an entry of [DEPENDS] of [module] resolves to, when
    [Modules.dependencies] looks it up in [loaded_modules]: an entry that
    names no class of [binwalk.modules], or the class itself, is passed
    over. *)
Definition resolve_entry (modules : list ModuleClass) (module : ModuleClass)
    (entry : string * string) : option string :=
  match lookup_module modules entry.2 with
  | Some dependency =>
      if String.eqb (__name__ dependency) (__name__ module) then None
      else Some (__name__ dependency)
  | None => None
  end.

Definition resolved_dependencies (modules : list ModuleClass)
    (module : ModuleClass) : list string :=
  omap (resolve_entry modules module) (default [] (DEPENDS module)).

(** Every class of [todo] comes after the classes it depends on, [seen]
    being the classes that come before [todo]. *)
Fixpoint dependencies_first (modules : list ModuleClass) (seen : list string)
    (todo : list ModuleClass) : bool :=
  match todo with
  | [] => true
  | module :: todo' =>
      forallb (fun n => bool_decide (n ∈ seen)) (resolved_dependencies modules module)
      && dependencies_first modules (__name__ module :: seen) todo'
  end.

(** [Alpha] depends on [Beta]; [Modules.list] returns them in the order of
    their names. *)
Definition Alpha : ModuleClass :=
  with_DEPENDS [("beta", "Beta")] (Module_subclass "Alpha").
Definition Beta : ModuleClass := with_DEPENDS [] (Module_subclass "Beta").

(** [Gamma] depends on [Beta] too, and comes after it. *)
Definition Gamma : ModuleClass :=
  with_DEPENDS [("beta", "Beta")] (Module_subclass "Gamma").

(** [Broken] fails to load; [Client] depends on it; [Zeta] depends on
    nothing and is enabled by the flag [--zeta]. *)
Definition Broken : ModuleClass :=
  with_load (raising (Exception "no such file"))
    (with_DEPENDS [] (Module_subclass "Broken")).
Definition Client : ModuleClass :=
  with_DEPENDS [("broken", "Broken")] (Module_subclass "Client").
Definition Zeta : ModuleClass :=
  with_CLI [Option.__init__ [("enabled", VBool true)] 0 "" "z" "zeta" TNone ""]
    (with_DEPENDS [] (Module_subclass "Zeta")).

(** What [f] reads in the orchestrator once a call has ended. *)
Definition afterwards {A B} (f : Modules -> B)
    (res : option (outcome A * Modules)) : option B :=
  match res with
  | Some (_, self) => Some (f self)
  | None => None
  end.

(** A fresh orchestrator, built without arguments. *)
Definition fresh_Modules : Modules := Modules___init__ example_runtime [] [].

(** The instance of [Broken] that [Modules.run] caches, and the
    orchestrator once [Broken] has been run with the arguments [argv]. *)
Definition Broken_instance : Instance :=
  Module_error (Some (Exception "no such file")) ∅
    (setattr (Module_new Broken 0) "enabled" (VBool false)).
Definition after_Broken (argv : list string) : Modules :=
  set_loaded_modules (<["Broken" := Broken_instance]> ∅)
    (set_constructed ["Broken"] (set_arguments argv fresh_Modules)).

(** ** Vocabulary of the further statements *)


(** A module that reads the target files: a flag and an option of the file
    kind. *)
Definition opt_quiet : Option.t :=
  Option.__init__ [("quiet", VBool true)] 0 "" "q" "quiet" TNone "".
Definition opt_files : Option.t :=
  Option.__init__ [("files", VList [])] 0 "" "" "file" TBlockFile "".
Definition Reader : ModuleClass :=
  with_CLI [opt_files; opt_quiet] (Module_subclass "Reader").

Definition Filter : ModuleClass :=
  with_CLI [opt_include; opt_only] (Module_subclass "Filter").

(** Two states of an instance that differ at most in [attrs]. *)
Definition same_bookkeeping (self self' : Instance) : Prop :=
  name self' = name self /\ obj_id self' = obj_id self
  /\ errors self' = errors self /\ results self' = results self
  /\ status self' = status self /\ display self' = display self.


(** A module whose plugins fail before the scan, and a configuration
    object handed to a dependency. *)
Definition FailingPreScan (e : exn) : ModuleClass :=
  {| __name__ := "FailingPreScan"; TITLE := ""; CLI := []; KWARGS := Some [];
     DEPENDS := Some Module_DEPENDS;
     HEADER_FORMAT := "%s\n"; RESULT_FORMAT := "%.8d      %s\n";
     RESULT := Module_RESULT; class_attrs := [];
     load := Module_load; init := Module_init_hook; run := Module_run;
     callback := Module_callback; validate := Module_validate;
     plugins_load_plugins := fun self => (Ok (), self);
     plugins_pre_scan_callbacks := raising e;
     plugins_post_scan_callbacks := fun self => (Ok (), self);
     plugins_scan_callbacks := fun r => Ok r |}.


(** A result attached to a file of 4096 bytes, read up to byte 1024 from
    an origin at byte 512. *)
Definition file_result : Result :=
  Result_init (<["file" := VFile 4096 1024 512]> ∅).

(** What a call of [self.run] may do to the orchestrator: it leaves
    [arguments] alone, it replaces no entry of [loaded_modules] but that of
    the class it runs, and it caches the instance it returns. *)
Definition run_keeps_cache (run : ModuleClass -> M Instance) : Prop :=
  forall module self o self',
    run module self = Some (o, self') ->
    arguments self' = arguments self
    /\ (forall n obj, n ≠ __name__ module ->
          loaded_modules self !! n = Some obj ->
          loaded_modules self' !! n = Some obj)
    /\ (forall obj, o = Ok obj ->
          loaded_modules self' !! __name__ module = Some obj).

(** A keyword argument that [Modules.dependencies] binds: the instance
    cached for a class named in [DEPENDS], free of recorded errors. *)
Definition bound_dependency (modules : list ModuleClass) (module : ModuleClass)
    (depends : list (string * string)) (self : Modules)
    (k : string) (v : pyval) : Prop :=
  exists dname dependency obj,
    (k, dname) ∈ depends
    /\ lookup_module modules dname = Some dependency
    /\ __name__ dependency ≠ __name__ module
    /\ loaded_modules self !! __name__ dependency = Some obj
    /\ errors obj = []
    /\ v = VObj (name obj) (obj_id obj).

(** A class whose [DEPENDS] names itself and a class that
    [binwalk.modules] does not have. *)
Definition Selfish : ModuleClass :=
  with_DEPENDS [("me", "Selfish"); ("ghost", "Missing")] (Module_subclass "Selfish").

(** The instance of [Beta] with identity [oid], as [Modules.load] builds it
    when the flag that enables it is not given. *)
Definition Beta_instance (oid : nat) : Instance :=
  setattr (Module_new Beta oid) "enabled" (VBool false).

(** The instance of [Zeta] with identity [oid] once [Modules.run] has run
    it with the flag [--zeta]: it has no [config], so [main] recorded an
    [AttributeError]. *)
Definition Zeta_instance (oid : nat) : Instance :=
  set_status (Some zero_status)
    (Module_error (Some AttributeError) ∅
       (set_status (Some zero_status)
          (setattr (Module_new Zeta oid) "enabled" (VBool true)))).

(** The orchestrator once [execute("--zeta")] has swept [Beta] and [Zeta]. *)
Definition after_Beta_Zeta : Modules :=
  set_loaded_modules
    (<["Zeta" := Zeta_instance 1]> (<["Beta" := Beta_instance 0]> ∅))
    (set_constructed ["Beta"; "Zeta"] fresh_Modules).

(** ** [Modules.help] *)

Definition newline : string := String (ascii_of_nat 10) "".

Fixpoint spaces (n : nat) : string :=
  match n with
  | O => ""
  | S n => String " " (spaces n)
  end.

(** The conversion [%-<width>s]: [s], padded with spaces on its right to
    [width] characters when it is shorter. *)
Definition ljust (width : nat) (s : string) : string :=
  String.append s (spaces (width - String.length s)).

(** The argument part of the line of an option: [=<dtype>] unless the
    option is a flag. *)
Definition help_optargs (o : Option.t) : string :=
  if decide (Option.type o = TNone) then ""
  else String.append "=<" (String.append (Option.dtype o) ">").

(** The line [Modules.help] prints for an option; nothing when the option
    has no long name.  The width handed to [%-<width>s] is
    [32 - len(long_opt)]; when that is negative, its sign is read as a
    second [-] flag, so the width is the absolute value. *)
Definition help_option (o : Option.t) : string :=
  if String.eqb (Option.long o) "" then ""
  else
    let long_opt := String.append "--" (Option.long o) in
    let short_opt :=
      if String.eqb (Option.short o) "" then "   "
      else String.append "-" (String.append (Option.short o) ",") in
    String.append "    "
      (String.append short_opt
         (String.append " "
            (String.append long_opt
               (String.append
                  (ljust (Z.abs_nat (32 - Z.of_nat (String.length long_opt)))
                         (help_optargs o))
                  (String.append (Option.description o) newline))))).

(** The token [Modules._set_arguments] makes of a keyword. *)
Definition keyword_token (rt : Runtime) (kv : string * pyval) : string :=
  let k := Modules_parse_api_opt kv.1 in
  if in_True_False_None kv.2 then k
  else String.append k (String.append " " (py_str rt kv.2)).


(** * Properties *)

(** Closes a goal [x ∉ [a; b; ...]] between closed terms. *)
Ltac not_in_list :=
  let H := fresh "Hin" in
  intros H;
  repeat (apply elem_of_cons in H as [H|H]; [discriminate H|]);
  by apply elem_of_nil in H.

(** ** Loops *)

Lemma for_each_app {A S} (body : A -> S -> outcome S) (l1 l2 : list A) (s : S) :
  for_each body (l1 ++ l2) s = (s' ← for_each body l1 s; for_each body l2 s').
Proof.
  revert s. induction l1 as [|a l1 IH]; intros s; simpl; [done|].
  destruct (body a s) as [s1|e]; simpl; [apply IH|done].
Qed.

Lemma for_each_preserves {A S} (P : S -> Prop) (body : A -> S -> outcome S)
    (Q : A -> Prop) (l : list A) :
  (forall a s s', Q a -> P s -> body a s = Ok s' -> P s') ->
  Forall Q l ->
  forall s s', P s -> for_each body l s = Ok s' -> P s'.
Proof.
  intros Hbody HQ. induction HQ as [|a l Ha _ IH]; intros s s' HP Hrun; simpl in Hrun.
  - by inversion Hrun; subst.
  - destruct (body a s) as [s1|e] eqn:E; [|done].
    eapply IH; [|exact Hrun]. eapply Hbody; eauto.
Qed.

(** ** The priority rule of [Modules.argv] *)

Section Argv.
Context (rt : Runtime) (args : gmap string pyval) (unknown : list string).

Lemma untouched_refl name st : untouched name st st.
Proof. by split. Qed.

Lemma untouched_trans name st1 st2 st3 :
  untouched name st1 st2 -> untouched name st2 st3 -> untouched name st1 st3.
Proof. intros [? ?] [? ?]. split; congruence. Qed.

Lemma argv_store_other o entry name st st' :
  entry.1 ≠ name ->
  argv_store rt args o entry st = Ok st' ->
  untouched name st st'.
Proof.
  destruct entry as [n v], st as [kw lp]. simpl. intros Hne.
  unfold argv_store.
  destruct (match lp !! n with Some p => p <=? Option.priority o | None => true end);
    [|intros [= <-]; apply untouched_refl].
  destruct (Option.type o); simpl;
    try (intros [= <-]; split; simpl; by rewrite lookup_insert_ne).
  - destruct (py_int_base0 _); simpl; [|done].
    intros [= <-]; split; simpl; by rewrite lookup_insert_ne.
  - destruct (py_float rt _); simpl; [|done].
    intros [= <-]; split; simpl; by rewrite lookup_insert_ne.
  - destruct (dict_store_at_len _ _); simpl; [|done].
    intros [= <-]; split; simpl; by rewrite lookup_insert_ne.
  - destruct (list_append _ _); simpl; [|done].
    intros [= <-]; split; simpl; by rewrite lookup_insert_ne.
Qed.

Lemma argv_entries_other o (l : list (string * pyval)) name :
  name ∉ l.*1 ->
  forall st st', for_each (argv_store rt args o) l st = Ok st' ->
  untouched name st st'.
Proof.
  induction l as [|entry l IH]; simpl; intros Hnotin st st' Hrun.
  - inversion Hrun; subst. apply untouched_refl.
  - apply not_elem_of_cons in Hnotin as [Hne Hnotin].
    destruct (argv_store rt args o entry st) as [st1|e] eqn:E; [|done].
    eapply untouched_trans; [eapply argv_store_other; eauto|by eapply IH].
Qed.

Lemma foldl_insert_other (keys : list string) (v : pyval) name
    (kw : gmap string pyval) :
  name ∉ keys ->
  foldl (fun kwargs k => <[k := v]> kwargs) kw keys !! name = kw !! name.
Proof.
  revert kw. induction keys as [|k keys IH]; simpl; intros kw Hnotin; [done|].
  apply not_elem_of_cons in Hnotin as [Hne Hnotin].
  rewrite IH by done. by rewrite lookup_insert_ne.
Qed.

Lemma argv_option_other o name st st' :
  name ∉ (Option.kwargs o).*1 ->
  argv_option rt args unknown o st = Ok st' ->
  untouched name st st'.
Proof.
  intros Hnotin. unfold argv_option.
  destruct (decide (Option.type o = TBlockFile)).
  - intros [= <-]. split; simpl; [|done]. by apply foldl_insert_other.
  - destruct (supplied args o).
    + by apply argv_entries_other.
    + intros [= <-]. apply untouched_refl.
Qed.

Lemma argv_options_other (l : list Option.t) name :
  Forall (fun o => name ∉ (Option.kwargs o).*1) l ->
  forall st st', for_each (argv_option rt args unknown) l st = Ok st' ->
  untouched name st st'.
Proof.
  intros Hl st st' Hrun.
  eapply (for_each_preserves (fun s => untouched name st s)); eauto.
  - intros o s s' Ho Hs Hstep. simpl in Ho.
    eapply untouched_trans; [exact Hs|by eapply argv_option_other].
  - apply untouched_refl.
Qed.
End Argv.

Section ArgvWrite.
Context (rt : Runtime) (args : gmap string pyval) (unknown : list string).

(** One entry of a supplied option of a scalar kind. *)
Lemma argv_store_target o name declared st st' :
  scalar_kind (Option.type o) = true ->
  argv_store rt args o (name, declared) st = Ok st' ->
  if may_write (st.2 !! name) o
  then exists v, option_value rt args o declared = Ok v
                 /\ st'.1 !! name = Some v
                 /\ st'.2 !! name = Some (Option.priority o)
  else st' = st.
Proof.
  destruct st as [kw lp]. unfold argv_store, may_write, option_value. simpl.
  intros Hkind.
  destruct (match lp !! name with Some p => p <=? Option.priority o | None => true end);
    [|by intros [= <-]].
  destruct (Option.type o); try discriminate Hkind; simpl.
  all: try (intros [= <-]; eexists; split; [done|];
            split; simpl; by rewrite lookup_insert_eq).
  - destruct (py_int_base0 _) as [z|e]; simpl; [|done].
    intros [= <-]. exists (VInt z). split; [done|].
    split; simpl; by rewrite lookup_insert_eq.
  - destruct (py_float rt _) as [f|e]; simpl; [|done].
    intros [= <-]. exists f. split; [done|].
    split; simpl; by rewrite lookup_insert_eq.
Qed.

(** A supplied option of a scalar kind that declares [name]: it writes
    when the priority rule lets it, and otherwise leaves the key alone. *)
Lemma argv_option_target o name declared st st' :
  scalar_kind (Option.type o) = true ->
  supplied args o = true ->
  NoDup (Option.kwargs o).*1 ->
  (name, declared) ∈ Option.kwargs o ->
  argv_option rt args unknown o st = Ok st' ->
  if may_write (st.2 !! name) o
  then exists v, option_value rt args o declared = Ok v
                 /\ st'.1 !! name = Some v
                 /\ st'.2 !! name = Some (Option.priority o)
  else untouched name st st'.
Proof.
  intros Hkind Hsup Hnodup Hin. unfold argv_option.
  destruct (decide (Option.type o = TBlockFile)) as [Hbf|_];
    [by rewrite Hbf in Hkind|].
  rewrite Hsup.
  apply list_elem_of_split in Hin as (pre & post & Hsplit).
  rewrite Hsplit in Hnodup |- *.
  rewrite fmap_app, fmap_cons in Hnodup. simpl in Hnodup.
  apply NoDup_app in Hnodup as (_ & Hpre & Hpost).
  apply NoDup_cons in Hpost as [Hpost _].
  assert (name ∉ pre.*1) as Hpre' by (intros ?; eapply Hpre; [done|left]).
  rewrite for_each_app.
  destruct (for_each (argv_store rt args o) pre st) as [st1|e] eqn:E1; simpl; [|done].
  destruct (argv_store rt args o (name, declared) st1) as [st2|e] eqn:E2; [|done].
  intros E3.
  pose proof (argv_entries_other rt args o pre name Hpre' _ _ E1) as [Hk1 Hp1].
  pose proof (argv_entries_other rt args o post name Hpost _ _ E3) as [Hk3 Hp3].
  pose proof (argv_store_target o name declared st1 st2 Hkind E2) as Hmid.
  rewrite Hp1 in Hmid.
  destruct (may_write (st.2 !! name) o).
  - destruct Hmid as (v & Hv & Hk2 & Hp2). exists v.
    split; [done|]. split; congruence.
  - subst st2. split; congruence.
Qed.
End ArgvWrite.

(** The last statement of [argv] leaves every key that is set as it is. *)
Lemma argv_enabled_default (st : gmap string pyval) (kwargs : gmap string pyval)
    name v :
  (if bool_decide (is_Some (st !! "enabled")) then Ok st
   else Ok (<["enabled" := VBool false]> st)) = Ok kwargs ->
  st !! name = Some v ->
  kwargs !! name = Some v.
Proof.
  intros Hret Hv. case_bool_decide as He; inversion Hret; subst; [done|].
  rewrite lookup_insert_ne; [done|]. intros <-. apply He. by exists v.
Qed.

(** C2 (as amended): when two options of one module's [CLI], both of a
    scalar kind and both supplied, assign the same key, the key holds the
    value of the option with the strictly higher priority, whichever comes
    first in [CLI]; with equal priorities it holds the value of the option
    that comes later in [CLI]. *)
Theorem C2_higher_priority_wins_tie_keeps_last
    (rt : Runtime) (modules : list ModuleClass) (module : ModuleClass)
    (argv : list string) (args : gmap string pyval) (unknown : list string)
    (l1 l2 l3 : list Option.t) (o1 o2 : Option.t) (name : string)
    (d1 d2 : pyval) (kwargs : gmap string pyval) :
  parse_known_args rt (parser_options modules) argv = Ok (args, unknown) ->
  CLI module = l1 ++ o1 :: l2 ++ o2 :: l3 ->
  Forall (fun o => name ∉ (Option.kwargs o).*1) (l1 ++ l2 ++ l3) ->
  scalar_kind (Option.type o1) = true -> scalar_kind (Option.type o2) = true ->
  supplied args o1 = true -> supplied args o2 = true ->
  NoDup (Option.kwargs o1).*1 -> NoDup (Option.kwargs o2).*1 ->
  (name, d1) ∈ Option.kwargs o1 -> (name, d2) ∈ Option.kwargs o2 ->
  Modules_argv rt modules module argv = Ok kwargs ->
  exists v, kwargs !! name = Some v /\
    (if Option.priority o1 <=? Option.priority o2
     then option_value rt args o2 d2
     else option_value rt args o1 d1) = Ok v.
Proof.
  intros Hparse Hcli Hothers Hk1 Hk2 Hs1 Hs2 Hn1 Hn2 Hin1 Hin2.
  unfold Modules_argv. rewrite Hparse, Hcli. simpl.
  apply Forall_app in Hothers as [Hl1 Hothers].
  apply Forall_app in Hothers as [Hl2 Hl3].
  rewrite for_each_app.
  destruct (for_each (argv_option rt args unknown) l1 (∅, ∅)) as [sa|e] eqn:Ea;
    simpl; [|done].
  destruct (argv_option rt args unknown o1 sa) as [sb|e] eqn:Eb; [|done].
  rewrite for_each_app.
  destruct (for_each (argv_option rt args unknown) l2 sb) as [sc|e] eqn:Ec;
    simpl; [|done].
  destruct (argv_option rt args unknown o2 sc) as [sd|e] eqn:Ed; [|done].
  destruct (for_each (argv_option rt args unknown) l3 sd) as [se|e] eqn:Ee;
    simpl; [|done].
  intros Hret.
  pose proof (argv_options_other rt args unknown l1 name Hl1 _ _ Ea) as [_ Hpa].
  pose proof (argv_options_other rt args unknown l2 name Hl2 _ _ Ec) as [Hkc Hpc].
  pose proof (argv_options_other rt args unknown l3 name Hl3 _ _ Ee) as [Hke _].
  pose proof (argv_option_target rt args unknown o1 name d1 sa sb Hk1 Hs1 Hn1 Hin1 Eb)
    as H1.
  rewrite Hpa in H1. simpl in H1. rewrite lookup_empty in H1. simpl in H1.
  destruct H1 as (v1 & Hv1 & Hkb & Hpb).
  pose proof (argv_option_target rt args unknown o2 name d2 sc sd Hk2 Hs2 Hn2 Hin2 Ed)
    as H2.
  rewrite Hpc, Hpb in H2. simpl in H2.
  destruct (Option.priority o1 <=? Option.priority o2).
  - destruct H2 as (v2 & Hv2 & Hkd & _). exists v2. split; [|done].
    eapply argv_enabled_default; [exact Hret|]. congruence.
  - destruct H2 as [Hkd _]. exists v1. split; [|done].
    eapply argv_enabled_default; [exact Hret|]. congruence.
Qed.



Lemma C2_witness :
  Modules_argv example_runtime [Ranked] Ranked ["--low"; "--high"]
  = Ok (<["enabled" := VBool false]> (<["mode" := VStr "high"]> ∅))
  /\ exists v,
       (<["enabled" := VBool false]> (<["mode" := VStr "high"]> ∅) : gmap string pyval)
         !! "mode" = Some v
       /\ option_value example_runtime
            (<["low" := VBool true]> (<["high" := VBool true]> ∅))
            opt_high (VStr "high") = Ok v.
Proof.
  assert (Modules_argv example_runtime [Ranked] Ranked ["--low"; "--high"]
          = Ok (<["enabled" := VBool false]> (<["mode" := VStr "high"]> ∅)))
    as Hargv by reflexivity.
  split; [exact Hargv|].
  apply (C2_higher_priority_wins_tie_keeps_last
           example_runtime [Ranked] Ranked ["--low"; "--high"]
           (<["low" := VBool true]> (<["high" := VBool true]> ∅)) []
           [] [] [] opt_high opt_low "mode" (VStr "high") (VStr "low")).
  - reflexivity.
  - reflexivity.
  - simpl. constructor.
  - reflexivity.
  - reflexivity.
  - reflexivity.
  - reflexivity.
  - apply NoDup_singleton.
  - apply NoDup_singleton.
  - apply list_elem_of_here.
  - apply list_elem_of_here.
  - exact Hargv.
Defined.

(** With equal priorities the option that comes later in [CLI] overwrites
    the earlier one: the test of the rule is [<=]. *)
Lemma C2_counterexample_tie_keeps_last_writer :
  Modules_argv example_runtime [Scan] Scan ["--alpha"; "--beta"]
  = Ok (<["enabled" := VBool false]> (<["mode" := VStr "second"]> ∅))
  /\ Option.priority opt_alpha = Option.priority opt_beta
  /\ (<["enabled" := VBool false]> (<["mode" := VStr "second"]> ∅)
        : gmap string pyval) !! "mode" ≠ Some (VStr "first").
Proof.
  split; [reflexivity|]. split; [reflexivity|].
  rewrite lookup_insert_ne by discriminate. rewrite lookup_insert_eq.
  discriminate.
Qed.

(** Only the options of the requested module are consulted: an option of
    another module does not take part in the rule, whatever its priority. *)
Example argv_consults_own_options_only :
  Modules_argv example_runtime
    [with_CLI [opt_low] (Module_subclass "Low");
     with_CLI [opt_high] (Module_subclass "High")]
    (with_CLI [opt_low] (Module_subclass "Low")) ["--high"; "--low"]
  = Ok (<["enabled" := VBool false]> (<["mode" := VStr "low"]> ∅)).
Proof. reflexivity. Qed.

(** Options of the list kind accumulate: the key holds the values of both
    options, not only that of the option with the higher priority. *)
Example argv_list_kind_accumulates :
  Modules_argv example_runtime
    [with_CLI [opt_include; opt_only] (Module_subclass "Filter")]
    (with_CLI [opt_include; opt_only] (Module_subclass "Filter"))
    ["--include"; "a"; "--only"; "b"]
  = Ok (<["enabled" := VBool false]>
          (<["patterns" := VList [VStr "a"; VStr "b"]]> ∅)).
Proof. reflexivity. Qed.


(** ** Keyword processing: [Modules.kwargs] *)

Section Kwargs.
Context (m : ModuleClass) (kwargs : gmap string pyval).

Lemma declared_loop_supplied (declared : list Kwarg.t) self ma v :
  ma ∈ declared ->
  kwargs !! Kwarg.name ma = Some v ->
  attrs (foldl (kwargs_assign kwargs) self declared) !! Kwarg.name ma = Some v.
Proof.
  induction declared as [|x l IH] using rev_ind; intros Hin Hv.
  - by apply elem_of_nil in Hin.
  - rewrite foldl_app. simpl. unfold kwargs_assign at 1, setattr. simpl.
    destruct (decide (Kwarg.name x = Kwarg.name ma)) as [Heq|Hne].
    + rewrite Heq, lookup_insert_eq. by rewrite Hv.
    + rewrite lookup_insert_ne by done. apply IH; [|done].
      apply elem_of_app in Hin as [Hin|Hin]; [done|].
      apply list_elem_of_singleton in Hin. by subst.
Qed.

Lemma declared_loop_default (declared : list Kwarg.t) self ma :
  ma ∈ declared ->
  kwargs !! Kwarg.name ma = None ->
  exists ma', ma' ∈ declared /\ Kwarg.name ma' = Kwarg.name ma
    /\ attrs (foldl (kwargs_assign kwargs) self declared) !! Kwarg.name ma
       = Some (Kwarg.default ma').
Proof.
  induction declared as [|x l IH] using rev_ind; intros Hin Hv.
  - by apply elem_of_nil in Hin.
  - rewrite foldl_app. simpl. unfold kwargs_assign at 1, setattr. simpl.
    destruct (decide (Kwarg.name x = Kwarg.name ma)) as [Heq|Hne].
    + exists x. split; [apply elem_of_app; right; apply list_elem_of_here|].
      split; [done|]. rewrite Heq, lookup_insert_eq. by rewrite Hv.
    + rewrite lookup_insert_ne by done.
      destruct IH as (ma' & Hin' & Hname & Hattr); [|done|].
      { apply elem_of_app in Hin as [Hin|Hin]; [done|].
        apply list_elem_of_singleton in Hin. by subst. }
      exists ma'. split; [apply elem_of_app; by left|done].
Qed.

Lemma declared_loop_other (declared : list Kwarg.t) self k :
  k ∉ Kwarg.name <$> declared ->
  attrs (foldl (kwargs_assign kwargs) self declared) !! k = attrs self !! k.
Proof.
  induction declared as [|x l IH] using rev_ind; intros Hnotin; [done|].
  rewrite fmap_app in Hnotin. apply not_elem_of_app in Hnotin as [Hl Hx].
  rewrite foldl_app. simpl. unfold kwargs_assign at 1, setattr. simpl.
  rewrite lookup_insert_ne; [by apply IH|].
  intros <-. apply Hx. apply list_elem_of_here.
Qed.

(** The second loop attaches exactly the keywords for which [hasattr]
    fails; every attribute that exists already keeps its value. *)
Lemma attach_loop self k :
  attrs (map_fold (kwargs_attach m) self kwargs) !! k =
  match attrs self !! k with
  | Some x => Some x
  | None => if has_class_attr m k then None else kwargs !! k
  end.
Proof.
  revert k.
  apply (map_fold_weak_ind
           (fun r (seen : gmap string pyval) => forall k,
              attrs r !! k =
              match attrs self !! k with
              | Some x => Some x
              | None => if has_class_attr m k then None else seen !! k
              end)).
  - intros k. rewrite lookup_empty. by destruct (attrs self !! k), (has_class_attr m k).
  - intros i x seen r Hfresh IH k. unfold kwargs_attach, hasattr.
    pose proof (IH i) as Hi. rewrite Hfresh in Hi.
    destruct (decide (k = i)) as [->|Hne].
    + rewrite lookup_insert_eq.
      destruct (attrs self !! i) as [y|] eqn:Hself.
      * rewrite Hi. rewrite bool_decide_eq_true_2 by eauto. simpl. exact Hi.
      * destruct (has_class_attr m i).
        -- rewrite orb_true_r. exact Hi.
        -- rewrite Hi. rewrite bool_decide_eq_false_2 by (by intros [? ?]).
           simpl. by rewrite lookup_insert_eq.
    + rewrite (lookup_insert_ne seen) by done.
      destruct (bool_decide (is_Some (attrs r !! i)) || has_class_attr m i);
        [apply IH|].
      simpl. rewrite lookup_insert_ne by done. apply IH.
Qed.
End Kwargs.

(** C7 (as amended): [Modules.kwargs] gives every name declared in [KWARGS]
    the supplied value or else a declared default; a supplied keyword whose
    name is not declared is attached with its value only when the instance
    has no attribute of that name yet, and is dropped otherwise, the
    attribute staying as it was. *)
Theorem C7_kwargs_declared_then_new_names
    (m : ModuleClass) (self : Instance) (kwargs : gmap string pyval)
    (declared : list Kwarg.t) :
  KWARGS m = Some declared ->
  exists self', Modules_kwargs m self kwargs = Ok self'
    /\ (forall ma v, ma ∈ declared -> kwargs !! Kwarg.name ma = Some v ->
          attrs self' !! Kwarg.name ma = Some v)
    /\ (forall ma, ma ∈ declared -> kwargs !! Kwarg.name ma = None ->
          exists ma', ma' ∈ declared /\ Kwarg.name ma' = Kwarg.name ma
            /\ attrs self' !! Kwarg.name ma = Some (Kwarg.default ma'))
    /\ (forall k v, kwargs !! k = Some v -> k ∉ Kwarg.name <$> declared ->
          attrs self' !! k
          = if hasattr m self k then attrs self !! k else Some v).
Proof.
  intros Hdecl. unfold Modules_kwargs. rewrite Hdecl.
  eexists. split; [reflexivity|]. split; [|split].
  - intros ma v Hin Hv. rewrite attach_loop.
    by rewrite (declared_loop_supplied kwargs declared self ma v).
  - intros ma Hin Hv.
    destruct (declared_loop_default kwargs declared self ma Hin Hv)
      as (ma' & Hin' & Hname & Hattr).
    exists ma'. split; [done|]. split; [done|].
    rewrite attach_loop. by rewrite Hattr.
  - intros k v Hv Hnotin. rewrite attach_loop.
    rewrite (declared_loop_other kwargs declared self k Hnotin).
    unfold hasattr. destruct (attrs self !! k) as [x|] eqn:Hk.
    + by rewrite bool_decide_eq_true_2 by eauto.
    + rewrite bool_decide_eq_false_2 by (by intros [? ?]). simpl.
      by destruct (has_class_attr m k).
Qed.

Lemma C7_witness :
  exists self',
    Modules_kwargs Signature (Module_new Signature 0)
      (<["align" := VInt 4]> (<["extra" := VStr "x"]> (<["header" := VBool true]> ∅)))
    = Ok self'
    /\ attrs self' !! "align" = Some (VInt 4)
    /\ attrs self' !! "verbose" = Some (VBool false)
    /\ attrs self' !! "extra" = Some (VStr "x")
    /\ attrs self' !! "header" = None.
Proof.
  destruct (C7_kwargs_declared_then_new_names Signature (Module_new Signature 0)
              (<["align" := VInt 4]> (<["extra" := VStr "x"]>
                 (<["header" := VBool true]> ∅)))
              [Kwarg.Build "align" (VInt 1) "alignment of the scan";
               Kwarg.Build "verbose" (VBool false) "verbose output"] eq_refl)
    as (self' & Hrun & Hsupplied & Hdefault & Hnew).
  exists self'. split; [exact Hrun|]. split; [|split; [|split]].
  - apply (Hsupplied (Kwarg.Build "align" (VInt 1) "alignment of the scan"));
      [apply list_elem_of_here|reflexivity].
  - destruct (Hdefault (Kwarg.Build "verbose" (VBool false) "verbose output"))
      as (ma' & Hin & Hname & Hattr);
      [apply list_elem_of_further, list_elem_of_here|reflexivity|].
    simpl in Hattr. rewrite Hattr.
    apply elem_of_cons in Hin as [->|Hin]; [discriminate Hname|].
    apply list_elem_of_singleton in Hin as ->. reflexivity.
  - rewrite (Hnew "extra" (VStr "x")); [reflexivity|reflexivity|].
    simpl. not_in_list.
  - rewrite (Hnew "header" (VBool true)); [reflexivity|reflexivity|].
    simpl. not_in_list.
Defined.

(** A supplied keyword that is not declared in [KWARGS] but names an
    attribute the instance already has (here the method [header]) is not
    attached. *)
Lemma C7_counterexample_existing_attribute_kept :
  exists self,
    Module___init__ Signature 0 (<["header" := VBool true]> ∅) = Ok self
    /\ ("header" ∉ Kwarg.name <$> default [] (KWARGS Signature))
    /\ attrs self !! "header" ≠ Some (VBool true).
Proof.
  eexists. split; [reflexivity|]. split.
  - simpl. not_in_list.
  - vm_compute. discriminate.
Qed.

(** ** The catch boundaries of [Module.__init__] and [Module.main] *)

Lemma KeyboardInterrupt_not_Exception e :
  isinstance_Exception e = true -> isinstance_KeyboardInterrupt e = false.
Proof. by destruct e. Qed.

Lemma guarded_raise {A} (e : exn) (self : Instance) :
  isinstance_KeyboardInterrupt e = true \/ isinstance_Exception e = true ->
  @guarded A (Raise e, self) =
  if isinstance_KeyboardInterrupt e then (Propagate e, self)
  else (Return (VBool false), Module_error (Some e) ∅ self).
Proof.
  intros [Hki|Hexn]; unfold guarded.
  - by rewrite Hki.
  - by rewrite (KeyboardInterrupt_not_Exception e Hexn), Hexn.
Qed.

(** C6 (as amended): [KeyboardInterrupt] raised by [load], [init] or [run]
    leaves [Module.__init__] and [Module.main] as it is, with nothing added
    to [errors]; an exception that is an instance of [Exception] is caught
    there, wrapped into an [Error] that carries it and appended to [errors]:
    [__init__] then goes on to load the plugins, [main] returns [False]. *)
Theorem C6_interrupt_propagates_exceptions_recorded (m : ModuleClass) (e : exn) :
  isinstance_KeyboardInterrupt e = true \/ isinstance_Exception e = true ->
  (forall oid kwargs self self',
     init_prologue m oid kwargs = Ok self ->
     load m self = (Raise e, self') ->
     Module___init__ m oid kwargs =
     if isinstance_KeyboardInterrupt e then Raise e
     else match plugins_load_plugins m (Module_error (Some e) ∅ self') with
          | (Ok _, self'') => Ok self''
          | (Raise e', _) => Raise e'
          end)
  /\ (forall status self self',
        init m (set_status (Some status) self) = (Raise e, self') ->
        Module_main m status self =
        if isinstance_KeyboardInterrupt e then (Raise e, self', [PInit])
        else (Ok (VBool false), Module_error (Some e) ∅ self', [PInit]))
  /\ (forall status self s1 s2 s3 s4,
        init m (set_status (Some status) self) = (Ok (), s1) ->
        display_send [FormatStrings (HEADER_FORMAT m) (RESULT_FORMAT m)] s1
        = (Ok (), s2) ->
        plugins_pre_scan_callbacks m s2 = (Ok (), s3) ->
        run m s3 = (Raise e, s4) ->
        Module_main m status self =
        if isinstance_KeyboardInterrupt e
        then (Raise e, s4, [PInit; PFormatStrings; PPreScan; PRun])
        else (Ok (VBool false), Module_error (Some e) ∅ s4,
              [PInit; PFormatStrings; PPreScan; PRun])).
Proof.
  intros Hclass. split; [|split].
  - intros oid kwargs self self' Hpro Hload.
    unfold Module___init__. rewrite Hpro. simpl. unfold try_load. rewrite Hload.
    destruct Hclass as [Hki|Hexn].
    + by rewrite Hki.
    + by rewrite (KeyboardInterrupt_not_Exception e Hexn), Hexn.
  - intros status self self' Hinit.
    unfold Module_main. rewrite Hinit, (guarded_raise e self' Hclass).
    by destruct (isinstance_KeyboardInterrupt e).
  - intros status self s1 s2 s3 s4 Hinit Hfmt Hpre Hrun.
    unfold Module_main. rewrite Hinit. simpl. rewrite Hfmt. simpl.
    rewrite Hpre, Hrun, (guarded_raise e s4 Hclass).
    by destruct (isinstance_KeyboardInterrupt e).
Qed.

Lemma C6_witness :
  Module___init__ (FailingLoad KeyboardInterrupt) 0 ∅ = Raise KeyboardInterrupt
  /\ Module___init__ (FailingLoad (Exception "boom")) 0 ∅
     = Ok (Module_error (Some (Exception "boom")) ∅
             (Module_new (FailingLoad (Exception "boom")) 0))
  /\ Module_main (FailingRun (Exception "boom")) zero_status
       (configured (FailingRun (Exception "boom")))
     = (Ok (VBool false),
        Module_error (Some (Exception "boom")) ∅
          (set_display [FormatStrings "%s\n" "%.8d      %s\n"]
             (set_status (Some zero_status)
                (configured (FailingRun (Exception "boom"))))),
        [PInit; PFormatStrings; PPreScan; PRun]).
Proof.
  split; [|split].
  - destruct (C6_interrupt_propagates_exceptions_recorded
                (FailingLoad KeyboardInterrupt) KeyboardInterrupt
                (or_introl eq_refl)) as (Hload & _ & _).
    exact (Hload 0%nat ∅ (Module_new (FailingLoad KeyboardInterrupt) 0)
             (Module_new (FailingLoad KeyboardInterrupt) 0) eq_refl eq_refl).
  - destruct (C6_interrupt_propagates_exceptions_recorded
                (FailingLoad (Exception "boom")) (Exception "boom")
                (or_intror eq_refl)) as (Hload & _ & _).
    exact (Hload 0%nat ∅ (Module_new (FailingLoad (Exception "boom")) 0)
             (Module_new (FailingLoad (Exception "boom")) 0) eq_refl eq_refl).
  - destruct (C6_interrupt_propagates_exceptions_recorded
                (FailingRun (Exception "boom")) (Exception "boom")
                (or_intror eq_refl)) as (_ & _ & Hrun).
    exact (Hrun zero_status (configured (FailingRun (Exception "boom")))
             (set_status (Some zero_status)
                (configured (FailingRun (Exception "boom"))))
             (set_display [FormatStrings "%s\n" "%.8d      %s\n"]
                (set_status (Some zero_status)
                   (configured (FailingRun (Exception "boom")))))
             (set_display [FormatStrings "%s\n" "%.8d      %s\n"]
                (set_status (Some zero_status)
                   (configured (FailingRun (Exception "boom")))))
             (set_display [FormatStrings "%s\n" "%.8d      %s\n"]
                (set_status (Some zero_status)
                   (configured (FailingRun (Exception "boom")))))
             eq_refl eq_refl eq_refl eq_refl).
Defined.

(** [SystemExit] is neither [KeyboardInterrupt] nor an instance of
    [Exception]: raised by [load] or by [run] it leaves [__init__] and
    [main] without being recorded. *)
Lemma C6_counterexample_SystemExit_not_recorded :
  isinstance_KeyboardInterrupt SystemExit = false
  /\ Module___init__ (FailingLoad SystemExit) 0 ∅ = Raise SystemExit
  /\ Module_main (FailingRun SystemExit) zero_status
       (configured (FailingRun SystemExit))
     = (Raise SystemExit,
        set_display [FormatStrings "%s\n" "%.8d      %s\n"]
          (set_status (Some zero_status) (configured (FailingRun SystemExit))),
        [PInit; PFormatStrings; PPreScan; PRun])
  /\ errors (set_display [FormatStrings "%s\n" "%.8d      %s\n"]
               (set_status (Some zero_status)
                  (configured (FailingRun SystemExit)))) = [].
Proof. repeat split. Qed.

(** C8 (as amended): if [init] raises an exception that is an instance of
    [Exception], [Module.main] records it as an [Error] and returns [False]
    at once: [run] is not called. *)
Theorem C8_init_failure_returns_false_without_run
    (m : ModuleClass) (status : Status) (self self' : Instance) (e : exn) :
  init m (set_status (Some status) self) = (Raise e, self') ->
  isinstance_Exception e = true ->
  exists calls recorded,
    Module_main m status self
    = (Ok (VBool false), set_errors (errors self' ++ [recorded]) self', calls)
    /\ exception recorded = Some e
    /\ PRun ∉ calls.
Proof.
  intros Hinit Hexn. exists [PInit].
  exists {| err_result := Result_init ∅; exception := Some e;
            err_module := name self' |}.
  split; [|split; [reflexivity|not_in_list]].
  unfold Module_main. rewrite Hinit. unfold guarded.
  by rewrite (KeyboardInterrupt_not_Exception e Hexn), Hexn.
Qed.

Lemma C8_witness :
  exists calls self,
    Module_main (FailingInit (Exception "boom")) zero_status
      (configured (FailingInit (Exception "boom")))
    = (Ok (VBool false), self, calls)
    /\ exception <$> errors self = [Some (Exception "boom")]
    /\ PRun ∉ calls.
Proof.
  destruct (C8_init_failure_returns_false_without_run
              (FailingInit (Exception "boom")) zero_status
              (configured (FailingInit (Exception "boom"))) _
              (Exception "boom") eq_refl eq_refl)
    as (calls & recorded & Hmain & Hexn & Hcalls).
  eexists calls, _. split; [exact Hmain|]. split; [|exact Hcalls].
  simpl. by rewrite Hexn.
Defined.

(** [init] raising [SystemExit]: [main] neither records it nor returns
    [False]. *)
Lemma C8_counterexample_init_SystemExit :
  isinstance_KeyboardInterrupt SystemExit = false
  /\ Module_main (FailingInit SystemExit) zero_status
       (configured (FailingInit SystemExit))
     = (Raise SystemExit,
        set_status (Some zero_status) (configured (FailingInit SystemExit)),
        [PInit])
  /\ errors (set_status (Some zero_status)
               (configured (FailingInit SystemExit))) = [].
Proof. repeat split. Qed.

(** ** The result pipeline: [Module.result] *)

(** Every participant of a chain that runs through is called, in order. *)
Lemma run_chain_calls chain r r' calls :
  run_chain chain r = (Ok r', calls) -> calls.*1 = chain.*1.
Proof.
  revert r calls. induction chain as [|[p f] chain IH]; intros r calls; simpl.
  - by intros [= _ <-].
  - destruct (f r) as [r1|e]; [|done].
    destruct (run_chain chain r1) as [o calls1] eqn:E.
    intros [= -> <-]. simpl. f_equal. by eapply IH.
Qed.

Lemma result_chain_participants modules m self depends :
  (result_chain modules m self depends).*1
  = Validate :: (Callback <$> depends.*1) ++ [PluginsResult].
Proof.
  unfold result_chain. rewrite fmap_cons, fmap_app. simpl. f_equal.
  f_equal. rewrite <- !list_fmap_compose. by apply list_fmap_ext.
Qed.


Lemma update_progress_frame r self o self' :
  update_progress r self = (o, self') ->
  results self' = results self /\ attrs self' = attrs self
  /\ display self' = display self /\ errors self' = errors self.
Proof.
  unfold update_progress.
  destruct (r !! "file") as [f|]; [|by intros [= _ <-]].
  destruct (py_truthy f); [|by intros [= _ <-]].
  destruct (status self) as [st|]; [|by intros [= _ <-]].
  destruct (total st =? 0); [|by intros [= _ <-]].
  destruct f; by intros [= _ <-].
Qed.


(** C3 (as amended): when [validate], the [callback] of every dependency of
    [DEPENDS] and the plugins' callback all return, each of them has been
    called, in that order, whatever any of them did to the [valid] flag; and
    if the flag is off once they are through (a later participant can turn
    it on again) the [Result] is neither appended to [results] nor sent to
    the display: the instance is left as it was. *)
Theorem C3_flag_after_chain_decides_storage
    (modules : list ModuleClass) (m : ModuleClass)
    (depends : list (string * string)) (self : Instance) (r r' : Result)
    (calls : list (participant * Result)) (kwargs : gmap string pyval) :
  DEPENDS m = Some depends ->
  run_chain (result_chain modules m self depends) r = (Ok r', calls) ->
  calls.*1 = Validate :: (Callback <$> depends.*1) ++ [PluginsResult]
  /\ (attr_truthy r' "valid" = Some false ->
      Module_result modules m (Some r) kwargs self = (Ok (), self, calls)).
Proof.
  intros Hdep Hchain. split.
  - rewrite (run_chain_calls _ _ _ _ Hchain). apply result_chain_participants.
  - intros Hflag. unfold Module_result. rewrite Hdep, Hchain.
    unfold store_and_display. by rewrite Hflag.
Qed.

Lemma C3_witness :
  Module_result [Extractor; Rejecting] Rejecting (Some (Result_init ∅)) ∅
    (wired Rejecting)
  = (Ok (), wired Rejecting,
     [(Validate, Result_init ∅);
      (Callback "extractor", <["valid" := VBool false]> (Result_init ∅));
      (PluginsResult, <["valid" := VBool false]> (Result_init ∅))]).
Proof.
  assert (run_chain (result_chain [Extractor; Rejecting] Rejecting
                       (wired Rejecting) [("extractor", "Extractor")])
            (Result_init ∅)
          = (Ok (<["valid" := VBool false]> (Result_init ∅)),
             [(Validate, Result_init ∅);
              (Callback "extractor", <["valid" := VBool false]> (Result_init ∅));
              (PluginsResult, <["valid" := VBool false]> (Result_init ∅))]))
    as Hchain by reflexivity.
  destruct (C3_flag_after_chain_decides_storage
              [Extractor; Rejecting] Rejecting [("extractor", "Extractor")]
              (wired Rejecting) (Result_init ∅) _ _ ∅ eq_refl Hchain)
    as [_ Hstore].
  apply Hstore. unfold attr_truthy. by rewrite lookup_insert_eq.
Defined.

(** [validate] turns the flag off, the dependency's [callback] turns it on
    again: the [Result] is stored and displayed. *)
Lemma C3_counterexample_later_callback_revalidates :
  validate Rejecting (Result_init ∅) = Ok (<["valid" := VBool false]> (Result_init ∅))
  /\ attr_truthy (<["valid" := VBool false]> (Result_init ∅)) "valid" = Some false
  /\ Module_result [Revalidating; Rejecting] Rejecting (Some (Result_init ∅)) ∅
       (wired Rejecting)
     = (Ok (),
        set_display [DisplayResult [VInt 0; VStr ""]]
          (set_results [<["valid" := VBool true]> (Result_init ∅)]
             (wired Rejecting)),
        [(Validate, Result_init ∅);
         (Callback "extractor", <["valid" := VBool false]> (Result_init ∅));
         (PluginsResult, <["valid" := VBool true]> (Result_init ∅))]).
Proof.
  split; [reflexivity|]. split; [reflexivity|].
  reflexivity.
Qed.






(** ** The orchestrator: [Modules.dependencies], [load], [run], [execute] *)

Section Orchestrator.
Context (rt : Runtime) (modules : list ModuleClass).

Lemma dependencies_loop_app run module l1 l2 kwargs self :
  dependencies_loop modules run module (l1 ++ l2) kwargs self =
  match dependencies_loop modules run module l1 kwargs self with
  | Some (Ok kwargs', self') =>
      dependencies_loop modules run module l2 kwargs' self'
  | other => other
  end.
Proof.
  revert kwargs self. induction l1 as [|entry l1 IH]; intros kwargs self; simpl.
  - by destruct (dependencies_loop modules run module l2 kwargs self)
      as [[[]]|].
  - destruct (dependencies_step modules run module entry kwargs self)
      as [[[kwargs'|e] self']|]; [apply IH|done|done].
Qed.


(** A dependency whose cached instance has recorded errors ends the
    loop of [dependencies] with [DependencyError]. *)
Lemma dependencies_step_errors run module kwarg dname dependency kwargs
    self1 self2 obj :
  lookup_module modules dname = Some dependency ->
  __name__ dependency ≠ __name__ module ->
  (is_Some (loaded_modules self1 !! __name__ dependency) /\ self2 = self1
   \/ loaded_modules self1 !! __name__ dependency = None
      /\ exists o, run dependency self1 = Some (Ok o, self2)) ->
  loaded_modules self2 !! __name__ dependency = Some obj ->
  errors obj ≠ [] ->
  dependencies_step modules run module (kwarg, dname) kwargs self1
  = Some (Raise (DependencyError
                   (String.append "Failed to load " (__name__ dependency))),
          self2).
Proof.
  intros Hlookup Hne Hresolved Hobj Herrors.
  unfold dependencies_step. rewrite Hlookup.
  destruct (String.eqb_spec (__name__ dependency) (__name__ module)); [done|].
  destruct Hresolved as [[[cached Hcached] ->]|[Hnone [o Hrun]]].
  - rewrite Hcached, Hobj. by destruct (errors obj).
  - rewrite Hnone, Hrun, Hobj. by destruct (errors obj).
Qed.

(** [run] hands on what [load] raises, and [load] what [dependencies]
    raises. *)
Lemma load_with_dependencies_raise run module self kwargs e self' :
  Modules_argv rt modules module (arguments self) = Ok kwargs ->
  dependencies_with modules run module self = Some (Raise e, self') ->
  load_with rt modules run module self = Some (Raise e, self').
Proof. intros Hargv Hdeps. unfold load_with. by rewrite Hargv, Hdeps. Qed.

Lemma run_load_raise fuel module self e self' :
  Modules_load rt modules fuel module self = Some (Raise e, self') ->
  Modules_run rt modules (S fuel) module self = Some (Raise e, self').
Proof. unfold Modules_load. simpl. by intros ->. Qed.
End Orchestrator.

(** C4: when a dependency of [module], once resolved (found in
    [loaded_modules], or else run), has a non-empty [errors] list,
    [Modules.dependencies] raises [DependencyError] and returns no keyword
    arguments; [Modules.load] and [Modules.run] hand the exception on from
    the state in which it was raised: the constructor of [module] is not
    called. *)
Theorem C4_dependency_with_errors_aborts_load
    (rt : Runtime) (modules : list ModuleClass) (fuel : nat)
    (module dependency : ModuleClass) (pre post : list (string * string))
    (kwarg dname : string) (kwargs kwargs1 : gmap string pyval)
    (self self1 self2 : Modules) (obj : Instance) :
  DEPENDS module = Some (pre ++ (kwarg, dname) :: post) ->
  Modules_argv rt modules module (arguments self) = Ok kwargs ->
  dependencies_loop modules (Modules_run rt modules fuel) module pre ∅ self
  = Some (Ok kwargs1, self1) ->
  lookup_module modules dname = Some dependency ->
  __name__ dependency ≠ __name__ module ->
  (is_Some (loaded_modules self1 !! __name__ dependency) /\ self2 = self1
   \/ loaded_modules self1 !! __name__ dependency = None
      /\ exists o, Modules_run rt modules fuel dependency self1 = Some (Ok o, self2)) ->
  loaded_modules self2 !! __name__ dependency = Some obj ->
  errors obj ≠ [] ->
  let failure :=
    DependencyError (String.append "Failed to load " (__name__ dependency)) in
  Modules_dependencies rt modules fuel module self = Some (Raise failure, self2)
  /\ Modules_load rt modules fuel module self = Some (Raise failure, self2)
  /\ Modules_run rt modules (S fuel) module self = Some (Raise failure, self2).
Proof.
  intros Hdep Hargv Hpre Hlookup Hne Hresolved Hobj Herrors failure.
  assert (Modules_dependencies rt modules fuel module self
          = Some (Raise failure, self2)) as Hdeps.
  { unfold Modules_dependencies, dependencies_with. rewrite Hdep.
    rewrite dependencies_loop_app, Hpre. simpl.
    by rewrite (dependencies_step_errors modules _ module kwarg dname dependency
                  kwargs1 self1 self2 obj). }
  assert (Modules_load rt modules fuel module self
          = Some (Raise failure, self2)) as Hload.
  { by eapply load_with_dependencies_raise. }
  split; [done|]. split; [done|]. by apply run_load_raise.
Qed.


Lemma C4_witness :
  Modules_load example_runtime [Broken; Client] 1 Client fresh_Modules
  = Some (Raise (DependencyError "Failed to load Broken"), after_Broken [])
  /\ constructed (after_Broken []) = ["Broken"].
Proof.
  split; [|reflexivity].
  destruct (C4_dependency_with_errors_aborts_load
              example_runtime [Broken; Client] 1 Client Broken [] []
              "broken" "Broken" (<["enabled" := VBool false]> ∅) ∅
              fresh_Modules fresh_Modules (after_Broken []) Broken_instance)
    as (_ & Hload & _).
  - reflexivity.
  - reflexivity.
  - reflexivity.
  - reflexivity.
  - discriminate.
  - right. split; [reflexivity|]. exists Broken_instance. reflexivity.
  - reflexivity.
  - discriminate.
  - exact Hload.
Defined.



(** *** Dependencies that are cached are not run again *)

Section Cached.
Context (rt : Runtime) (modules : list ModuleClass).

(** When every dependency is in [loaded_modules] already, the loop of
    [dependencies] does not call [run] and leaves the orchestrator as it
    is. *)
Lemma dependencies_loop_cached run module depends kwargs self :
  (forall n, n ∈ omap (resolve_entry modules module) depends ->
             is_Some (loaded_modules self !! n)) ->
  exists o, dependencies_loop modules run module depends kwargs self
            = Some (o, self).
Proof.
  revert kwargs. induction depends as [|[kwarg dname] depends IH];
    intros kwargs Hcached; simpl.
  - by eexists.
  - simpl in Hcached. unfold resolve_entry in Hcached at 1. simpl in Hcached.
    unfold dependencies_step.
    destruct (lookup_module modules dname) as [dependency|]; [|by apply IH].
    destruct (String.eqb (__name__ dependency) (__name__ module));
      [by apply IH|].
    destruct (Hcached (__name__ dependency)) as [obj Hobj];
      [apply list_elem_of_here|].
    rewrite Hobj. simpl. rewrite Hobj. destruct (errors obj); [|by eexists].
    apply IH. intros n Hn. apply Hcached. by apply list_elem_of_further.
Qed.

(** What [run] does to the record of constructor calls when the
    dependencies of [module] are cached: it adds [module] at most once,
    and exactly once when it returns, in which case [module] is cached
    too. *)
Lemma Modules_run_cached fuel module self :
  (forall n, n ∈ resolved_dependencies modules module ->
             is_Some (loaded_modules self !! n)) ->
  exists o self',
    Modules_run rt modules (S fuel) module self = Some (o, self')
    /\ ((exists e, o = Raise e
         /\ (constructed self' = constructed self
             \/ constructed self' = constructed self ++ [__name__ module]))
        \/ (exists obj, o = Ok obj
            /\ constructed self' = constructed self ++ [__name__ module]
            /\ loaded_modules self'
               = <[__name__ module := obj]> (loaded_modules self))).
Proof.
  intros Hcached. cbn [Modules_run]. unfold load_with.
  destruct (Modules_argv rt modules module (arguments self)) as [kw|e];
    [|eexists _, _; split; [done|]; left; eauto].
  assert (exists o, dependencies_with modules (Modules_run rt modules fuel)
                      module self = Some (o, self)) as [o Hdeps].
  { unfold dependencies_with. unfold resolved_dependencies in Hcached.
    destruct (DEPENDS module) as [depends|]; [|by eexists].
    by apply dependencies_loop_cached. }
  rewrite Hdeps.
  destruct o as [deps|e]; [|eexists _, _; split; [done|]; left; eauto].
  unfold construct.
  destruct (Module___init__ module (List.length (constructed self)) (deps ∪ kw))
    as [obj|e]; [|eexists _, _; split; [done|]; left; eauto].
  destruct (enabled obj) as [[]|e];
    [| |eexists _, _; split; [done|]; left; eauto].
  - destruct (Module_main module _ obj) as [[[retval|e] obj'] calls].
    + eexists _, _. split; [done|]. right. eauto.
    + eexists _, _. split; [done|]. left. eauto.
  - eexists _, _. split; [done|]. right. eauto.
Qed.

(** The sweep of [execute] over classes that come after their
    dependencies: it constructs the classes of a prefix of the list, one
    constructor call each. *)
Lemma run_all_dependencies_first fuel todo seen self :
  dependencies_first modules seen todo = true ->
  (forall n, n ∈ seen -> is_Some (loaded_modules self !! n)) ->
  exists o self' k,
    run_all rt modules (S fuel) todo self = Some (o, self')
    /\ constructed self' = constructed self ++ (__name__ <$> take k todo).
Proof.
  revert seen self. induction todo as [|module todo IH]; intros seen self.
  - intros _ _. exists (Ok ()), self, 0%nat. split; [done|].
    simpl. by rewrite app_nil_r.
  - intros Hfirst Hseen. cbn [dependencies_first] in Hfirst.
    apply andb_true_iff in Hfirst as [Hdeps Hrest].
    destruct (Modules_run_cached fuel module self)
      as (o & self1 & Hrun & Hcases).
    { intros n Hn. apply Hseen.
      rewrite forallb_forall in Hdeps.
      apply list_elem_of_In in Hn. by apply Hdeps, bool_decide_eq_true in Hn. }
    cbn [run_all]. rewrite Hrun.
    destruct Hcases as [(e & -> & [Hc|Hc])|(obj & -> & Hc & Hloaded)].
    + exists (Raise e), self1, 0%nat. split; [done|].
      simpl. by rewrite app_nil_r.
    + exists (Raise e), self1, 1%nat. split; [done|].
      by rewrite Hc.
    + destruct (IH (__name__ module :: seen) self1 Hrest)
        as (o & self' & k & Hall & Hc').
      { intros n Hn. rewrite Hloaded.
        destruct (decide (__name__ module = n)) as [->|Hne].
        - rewrite lookup_insert_eq. eauto.
        - rewrite lookup_insert_ne by done. apply Hseen.
          by apply elem_of_cons in Hn as [->|Hn]. }
      exists o, self', (S k). split; [done|].
      rewrite Hc', Hc. simpl. by rewrite <- app_assoc.
Qed.
End Cached.

(** C1 (as amended): when every class comes after the classes it depends
    on in the order of [Modules.list], one call of [Modules.execute] calls
    the constructor of each class at most once: [Modules.dependencies] takes
    a dependency that is in [loaded_modules] from there.  ([Modules.run]
    itself never looks into [loaded_modules]; it always loads the class it
    is given.) *)
Theorem C1_dependencies_first_constructed_once
    (rt : Runtime) (modules : list ModuleClass) (fuel : nat)
    (args : list string) (kwargs : list (string * pyval)) (self : Modules) :
  NoDup (__name__ <$> modules) ->
  dependencies_first modules [] modules = true ->
  exists o self' new,
    Modules_execute rt modules (S fuel) args kwargs self = Some (o, self')
    /\ constructed self' = constructed self ++ new
    /\ NoDup new.
Proof.
  intros Hnames Hfirst. unfold Modules_execute.
  destruct (run_all_dependencies_first rt modules fuel modules []
              (execute_arguments rt args kwargs self) Hfirst)
    as (o & self1 & k & Hall & Hc).
  { intros n Hn. by apply elem_of_nil in Hn. }
  rewrite Hall.
  assert (constructed (execute_arguments rt args kwargs self) = constructed self)
    as Hargs.
  { unfold execute_arguments, Modules_set_arguments.
    destruct args, kwargs; try done;
      by repeat match goal with |- context [match ?x with _ => _ end] =>
                  destruct x end. }
  rewrite Hargs in Hc.
  assert (NoDup (__name__ <$> take k modules)) as Hnodup.
  { rewrite <- (take_drop k modules), fmap_app in Hnames.
    by apply NoDup_app in Hnames as (? & _ & _). }
  destruct o as [[]|e].
  - destruct (for_each _ (map_to_list (loaded_modules self1)) [])
      as [run_modules|e]; eexists _, _, _; (split; [done|]); by split.
  - eexists _, _, _. split; [done|]. by split.
Qed.

Lemma C1_witness :
  (exists o self' new,
     Modules_execute example_runtime [Beta; Gamma] 1 [] [] fresh_Modules
     = Some (o, self')
     /\ constructed self' = constructed fresh_Modules ++ new
     /\ NoDup new)
  /\ afterwards constructed
       (Modules_execute example_runtime [Beta; Gamma] 1 [] [] fresh_Modules)
     = Some ["Beta"; "Gamma"].
Proof.
  split; [|reflexivity].
  apply (C1_dependencies_first_constructed_once
           example_runtime [Beta; Gamma] 0 [] [] fresh_Modules).
  - simpl. apply NoDup_cons. split; [not_in_list|apply NoDup_singleton].
  - reflexivity.
Defined.

(** [Alpha] depends on [Beta] and nothing depends on [Alpha]: no cycle.
    [Modules.list] gives [Alpha] first, so [Beta] is constructed when the
    dependencies of [Alpha] are resolved, and constructed again when the
    sweep reaches it: [run] does not look for it in [loaded_modules].  The
    instance cached in the end is the second one, [Alpha] holds the first. *)
Lemma C1_counterexample_dependency_constructed_again :
  resolved_dependencies [Alpha; Beta] Alpha = ["Beta"]
  /\ resolved_dependencies [Alpha; Beta] Beta = []
  /\ afterwards constructed
       (Modules_execute example_runtime [Alpha; Beta] 2 [] [] fresh_Modules)
     = Some ["Beta"; "Alpha"; "Beta"]
  /\ afterwards (fun self => obj_id <$> loaded_modules self !! "Beta")
       (Modules_execute example_runtime [Alpha; Beta] 2 [] [] fresh_Modules)
     = Some (Some 2%nat)
  /\ afterwards (fun self => obj ← loaded_modules self !! "Alpha";
                             attrs obj !! "beta")
       (Modules_execute example_runtime [Alpha; Beta] 2 [] [] fresh_Modules)
     = Some (Some (VObj "Beta" 0)).
Proof. repeat split. Qed.

(** * Further properties *)

(** ** [Modules.argv]: what reaches the constructor *)

Section ArgvKeys.
Context (rt : Runtime) (args : gmap string pyval) (unknown : list string).

Lemma argv_store_keys o entry st st' k :
  argv_store rt args o entry st = Ok st' ->
  is_Some (st'.1 !! k) -> is_Some (st.1 !! k) \/ k = entry.1.
Proof.
  destruct entry as [n v], st as [kw lp]. unfold argv_store. simpl.
  destruct (match lp !! n with Some p => p <=? Option.priority o | None => true end);
    [|intros [= <-]; by left].
  destruct (decide (k = n)) as [->|Hne]; [by right|].
  destruct (Option.type o); simpl;
    try (intros [= <-]; simpl; rewrite lookup_insert_ne by done; by left).
  - destruct (py_int_base0 _); simpl; [|done].
    intros [= <-]; simpl; rewrite lookup_insert_ne by done; by left.
  - destruct (py_float rt _); simpl; [|done].
    intros [= <-]; simpl; rewrite lookup_insert_ne by done; by left.
  - destruct (dict_store_at_len _ _); simpl; [|done].
    intros [= <-]; simpl; rewrite lookup_insert_ne by done; by left.
  - destruct (list_append _ _); simpl; [|done].
    intros [= <-]; simpl; rewrite lookup_insert_ne by done; by left.
Qed.

Lemma argv_entries_keys o (l : list (string * pyval)) k :
  forall st st', for_each (argv_store rt args o) l st = Ok st' ->
  is_Some (st'.1 !! k) -> is_Some (st.1 !! k) \/ k ∈ l.*1.
Proof.
  induction l as [|entry l IH]; simpl; intros st st' Hrun Hk.
  - inversion Hrun; subst. by left.
  - destruct (argv_store rt args o entry st) as [st1|e] eqn:E; [|done].
    destruct (IH _ _ Hrun Hk) as [Hk1|Hin]; [|right; by apply list_elem_of_further].
    destruct (argv_store_keys _ _ _ _ _ E Hk1) as [?| ->]; [by left|].
    right. apply list_elem_of_here.
Qed.

Lemma foldl_insert_keys (keys : list string) (v : pyval) k
    (kw : gmap string pyval) :
  is_Some (foldl (fun kwargs k => <[k := v]> kwargs) kw keys !! k) ->
  is_Some (kw !! k) \/ k ∈ keys.
Proof.
  revert kw. induction keys as [|k' keys IH]; simpl; intros kw Hk; [by left|].
  destruct (IH _ Hk) as [Hin|Hin]; [|right; by apply list_elem_of_further].
  destruct (decide (k' = k)) as [->|Hne]; [right; apply list_elem_of_here|].
  rewrite lookup_insert_ne in Hin by done. by left.
Qed.

Lemma foldl_insert_in (keys : list string) (v : pyval) k
    (kw : gmap string pyval) :
  k ∈ keys ->
  foldl (fun kwargs k => <[k := v]> kwargs) kw keys !! k = Some v.
Proof.
  revert kw. induction keys as [|k' keys IH]; simpl; intros kw Hin.
  - by apply elem_of_nil in Hin.
  - destruct (decide (k ∈ keys)) as [Hlater|Hnot]; [by apply IH|].
    apply elem_of_cons in Hin as [->|Hin]; [|done].
    rewrite foldl_insert_other by done. apply lookup_insert_eq.
Qed.

Lemma argv_option_keys o st st' k :
  argv_option rt args unknown o st = Ok st' ->
  is_Some (st'.1 !! k) -> is_Some (st.1 !! k) \/ k ∈ (Option.kwargs o).*1.
Proof.
  unfold argv_option. destruct (decide (Option.type o = TBlockFile)).
  - intros [= <-]. simpl. apply foldl_insert_keys.
  - destruct (supplied args o); [apply argv_entries_keys|].
    intros [= <-]. by left.
Qed.

End ArgvKeys.

(** X1: the dictionary [argv] returns always has the key [enabled], and
    when no option of the module declares that key its value is [False]. *)
Theorem argv_always_sets_enabled
    (rt : Runtime) (modules : list ModuleClass) (module : ModuleClass)
    (argv : list string) (kwargs : gmap string pyval) :
  Modules_argv rt modules module argv = Ok kwargs ->
  is_Some (kwargs !! "enabled")
  /\ (Forall (fun o => "enabled" ∉ (Option.kwargs o).*1) (CLI module) ->
      kwargs !! "enabled" = Some (VBool false)).
Proof.
  unfold Modules_argv.
  destruct (parse_known_args rt (parser_options modules) argv)
    as [[args unknown]|e]; simpl; [|done].
  destruct (for_each (argv_option rt args unknown) (CLI module) (∅, ∅))
    as [st|e] eqn:Eloop; simpl; [|done].
  intros Hret. split.
  - case_bool_decide as He; inversion Hret; subst; [done|].
    rewrite lookup_insert_eq. by eexists.
  - intros Hnone.
    pose proof (argv_options_other rt args unknown _ "enabled" Hnone _ _ Eloop)
      as [Hk _].
    simpl in Hk. rewrite lookup_empty in Hk.
    case_bool_decide as He; [rewrite Hk in He; by destruct He|].
    inversion Hret; subst. apply lookup_insert_eq.
Qed.

Lemma argv_always_sets_enabled_witness :
  (<["enabled" := VBool false]> (<["mode" := VStr "high"]> ∅) : gmap string pyval)
    !! "enabled" = Some (VBool false).
Proof.
  apply (argv_always_sets_enabled example_runtime [Ranked] Ranked
           ["--low"; "--high"]); [reflexivity|].
  repeat constructor; simpl; intros [=]%list_elem_of_singleton.
Defined.

(** X2: every key of the dictionary [argv] returns is [enabled] or a key
    declared by an option of the module's own [CLI]. *)
Theorem argv_keys_are_declared
    (rt : Runtime) (modules : list ModuleClass) (module : ModuleClass)
    (argv : list string) (kwargs : gmap string pyval) (k : string) :
  Modules_argv rt modules module argv = Ok kwargs ->
  is_Some (kwargs !! k) ->
  k = "enabled" \/ exists o, o ∈ CLI module /\ k ∈ (Option.kwargs o).*1.
Proof.
  unfold Modules_argv.
  destruct (parse_known_args rt (parser_options modules) argv)
    as [[args unknown]|e]; simpl; [|done].
  destruct (for_each (argv_option rt args unknown) (CLI module) (∅, ∅))
    as [st|e] eqn:Eloop; simpl; [|done].
  intros Hret Hk.
  destruct (decide (k = "enabled")) as [|Hne]; [by left|]. right.
  assert (is_Some (st.1 !! k)) as Hst.
  { case_bool_decide; inversion Hret; subst; [done|].
    by rewrite lookup_insert_ne in Hk. }
  revert Hst.
  apply (for_each_preserves
           (fun s => is_Some (s.1 !! k) ->
                     exists o, o ∈ CLI module /\ k ∈ (Option.kwargs o).*1)
           (argv_option rt args unknown) (fun o => o ∈ CLI module)
           (CLI module)) with (s := (∅, ∅)); [| | |exact Eloop].
  - intros o s s' Ho IHs Hstep Hs'.
    destruct (argv_option_keys rt args unknown o s s' k Hstep Hs') as [?|?];
      [by apply IHs|by exists o].
  - by apply Forall_forall.
  - simpl. rewrite lookup_empty. by intros [? ?].
Qed.

Lemma argv_keys_are_declared_witness :
  "mode" = "enabled"
  \/ exists o, o ∈ CLI Ranked /\ "mode" ∈ (Option.kwargs o).*1.
Proof.
  apply (argv_keys_are_declared example_runtime [Ranked] Ranked
           ["--low"; "--high"]
           (<["enabled" := VBool false]> (<["mode" := VStr "high"]> ∅)));
    [reflexivity|].
  rewrite lookup_insert_ne by discriminate. rewrite lookup_insert_eq. by eexists.
Defined.

(** X3: an option of the file kind hands the unrecognised tokens of the
    command line to each key it declares, whatever the priorities and
    whether or not anything was supplied. *)
Theorem argv_file_option_takes_unknown_tokens
    (rt : Runtime) (modules : list ModuleClass) (module : ModuleClass)
    (argv : list string) (args : gmap string pyval) (unknown : list string)
    (l1 l2 : list Option.t) (o : Option.t) (k : string)
    (kwargs : gmap string pyval) :
  parse_known_args rt (parser_options modules) argv = Ok (args, unknown) ->
  CLI module = l1 ++ o :: l2 ->
  Option.type o = TBlockFile ->
  k ∈ (Option.kwargs o).*1 ->
  Forall (fun o' => k ∉ (Option.kwargs o').*1) l2 ->
  Modules_argv rt modules module argv = Ok kwargs ->
  kwargs !! k = Some (VList (VStr <$> unknown)).
Proof.
  intros Hparse Hcli Hty Hin Hl2.
  unfold Modules_argv. rewrite Hparse, Hcli. simpl.
  rewrite for_each_app.
  destruct (for_each (argv_option rt args unknown) l1 (∅, ∅)) as [sa|e];
    simpl; [|done].
  unfold argv_option at 1. rewrite Hty.
  destruct (decide (TBlockFile = TBlockFile)) as [_|Hne]; [|done].
  destruct (for_each (argv_option rt args unknown) l2 _) as [sc|e] eqn:Ec;
    simpl; [|done].
  intros Hret.
  pose proof (argv_options_other rt args unknown l2 k Hl2 _ _ Ec) as [Hkc _].
  eapply argv_enabled_default; [exact Hret|].
  rewrite Hkc. simpl. by apply foldl_insert_in.
Qed.

Lemma argv_file_option_takes_unknown_tokens_witness :
  Modules_argv example_runtime [Reader] Reader ["--quiet"; "a.bin"; "b.bin"]
  = Ok (<["enabled" := VBool false]>
          (<["quiet" := VBool true]>
             (<["files" := VList [VStr "a.bin"; VStr "b.bin"]]> ∅)))
  /\ (<["enabled" := VBool false]>
        (<["quiet" := VBool true]>
           (<["files" := VList [VStr "a.bin"; VStr "b.bin"]]> ∅))
        : gmap string pyval) !! "files"
     = Some (VList (VStr <$> ["a.bin"; "b.bin"])).
Proof.
  assert (Modules_argv example_runtime [Reader] Reader
            ["--quiet"; "a.bin"; "b.bin"]
          = Ok (<["enabled" := VBool false]>
                  (<["quiet" := VBool true]>
                     (<["files" := VList [VStr "a.bin"; VStr "b.bin"]]> ∅))))
    as Hargv by reflexivity.
  split; [exact Hargv|].
  apply (argv_file_option_takes_unknown_tokens
           example_runtime [Reader] Reader ["--quiet"; "a.bin"; "b.bin"]
           (<["quiet" := VBool true]> (<["file" := VNone]> ∅)) ["a.bin"; "b.bin"]
           [] [opt_quiet] opt_files "files").
  - reflexivity.
  - reflexivity.
  - reflexivity.
  - apply list_elem_of_here.
  - repeat constructor; simpl; intros [=]%list_elem_of_singleton.
  - exact Hargv.
Defined.



Section ArgvList.
Context (rt : Runtime) (args : gmap string pyval) (unknown : list string).

(** A supplied option of the list kind that declares [name]: when the
    priority rule lets it write, it appends its value to the list the key
    holds. *)
Lemma argv_option_target_list o name declared value st st' :
  Option.type o = TList ->
  args !! Option.long o = Some value -> in_None_False value = false ->
  NoDup (Option.kwargs o).*1 ->
  (name, declared) ∈ Option.kwargs o ->
  argv_option rt args unknown o st = Ok st' ->
  if may_write (st.2 !! name) o
  then exists l, list_append (default (VList []) (st.1 !! name)) value = Ok l
                 /\ st'.1 !! name = Some l
                 /\ st'.2 !! name = Some (Option.priority o)
  else untouched name st st'.
Proof.
  intros Hty Harg Hsup Hnodup Hin. unfold argv_option. rewrite Hty.
  destruct (decide (TList = TBlockFile)) as [Heq|_]; [discriminate Heq|].
  unfold supplied. rewrite Harg, Hsup. simpl.
  apply list_elem_of_split in Hin as (pre & post & Hsplit).
  rewrite Hsplit in Hnodup |- *.
  rewrite fmap_app, fmap_cons in Hnodup. simpl in Hnodup.
  apply NoDup_app in Hnodup as (_ & Hpre & Hpost).
  apply NoDup_cons in Hpost as [Hpost _].
  assert (name ∉ pre.*1) as Hpre' by (intros ?; eapply Hpre; [done|left]).
  rewrite for_each_app.
  destruct (for_each (argv_store rt args o) pre st) as [st1|e] eqn:E1; simpl; [|done].
  destruct (argv_store rt args o (name, declared) st1) as [st2|e] eqn:E2; [|done].
  intros E3.
  pose proof (argv_entries_other rt args o pre name Hpre' _ _ E1) as [Hk1 Hp1].
  pose proof (argv_entries_other rt args o post name Hpost _ _ E3) as [Hk3 Hp3].
  unfold may_write. rewrite <- Hp1, <- Hk1.
  destruct st1 as [kw lp]. unfold argv_store in E2. simpl in *.
  destruct (match lp !! name with Some p => p <=? Option.priority o | None => true end).
  - rewrite Hty, Harg in E2.
    destruct (decide (TList = TNone)) as [Heq|_]; [discriminate Heq|].
    simpl in E2.
    destruct (list_append (default (VList []) (kw !! name)) value) as [l|e];
      simpl in E2; [|done].
    injection E2 as <-. exists l. split; [done|]. simpl in *.
    rewrite Hk3, Hp3, !lookup_insert_eq. done.
  - injection E2 as <-. simpl in Hk3, Hp3. split; congruence.
Qed.
End ArgvList.

(** X5: two supplied options of the list kind that declare the same key:
    the key holds the values of both, in the order of [CLI], unless the
    later option has the strictly lower priority, in which case it holds
    the value of the earlier one alone. *)
Theorem argv_list_options_accumulate
    (rt : Runtime) (modules : list ModuleClass) (module : ModuleClass)
    (argv : list string) (args : gmap string pyval) (unknown : list string)
    (l1 l2 l3 : list Option.t) (o1 o2 : Option.t) (name : string)
    (d1 d2 v1 v2 : pyval) (kwargs : gmap string pyval) :
  parse_known_args rt (parser_options modules) argv = Ok (args, unknown) ->
  CLI module = l1 ++ o1 :: l2 ++ o2 :: l3 ->
  Forall (fun o => name ∉ (Option.kwargs o).*1) (l1 ++ l2 ++ l3) ->
  Option.type o1 = TList -> Option.type o2 = TList ->
  args !! Option.long o1 = Some v1 -> in_None_False v1 = false ->
  args !! Option.long o2 = Some v2 -> in_None_False v2 = false ->
  NoDup (Option.kwargs o1).*1 -> NoDup (Option.kwargs o2).*1 ->
  (name, d1) ∈ Option.kwargs o1 -> (name, d2) ∈ Option.kwargs o2 ->
  Modules_argv rt modules module argv = Ok kwargs ->
  kwargs !! name
  = Some (VList (if Option.priority o1 <=? Option.priority o2
                 then [v1; v2] else [v1])).
Proof.
  intros Hparse Hcli Hothers Ht1 Ht2 Ha1 Hs1 Ha2 Hs2 Hn1 Hn2 Hin1 Hin2.
  unfold Modules_argv. rewrite Hparse, Hcli. simpl.
  apply Forall_app in Hothers as [Hl1 Hothers].
  apply Forall_app in Hothers as [Hl2 Hl3].
  rewrite for_each_app.
  destruct (for_each (argv_option rt args unknown) l1 (∅, ∅)) as [sa|e] eqn:Ea;
    simpl; [|done].
  destruct (argv_option rt args unknown o1 sa) as [sb|e] eqn:Eb; [|done].
  rewrite for_each_app.
  destruct (for_each (argv_option rt args unknown) l2 sb) as [sc|e] eqn:Ec;
    simpl; [|done].
  destruct (argv_option rt args unknown o2 sc) as [sd|e] eqn:Ed; [|done].
  destruct (for_each (argv_option rt args unknown) l3 sd) as [se|e] eqn:Ee;
    simpl; [|done].
  intros Hret.
  pose proof (argv_options_other rt args unknown l1 name Hl1 _ _ Ea) as [Hka Hpa].
  pose proof (argv_options_other rt args unknown l2 name Hl2 _ _ Ec) as [Hkc Hpc].
  pose proof (argv_options_other rt args unknown l3 name Hl3 _ _ Ee) as [Hke _].
  pose proof (argv_option_target_list rt args unknown o1 name d1 v1 sa sb
                Ht1 Ha1 Hs1 Hn1 Hin1 Eb) as H1.
  rewrite Hpa, Hka in H1. simpl in H1. rewrite !lookup_empty in H1. simpl in H1.
  destruct H1 as (w1 & Hw1 & Hkb & Hpb). injection Hw1 as <-.
  pose proof (argv_option_target_list rt args unknown o2 name d2 v2 sc sd
                Ht2 Ha2 Hs2 Hn2 Hin2 Ed) as H2.
  rewrite Hpc, Hpb, Hkc, Hkb in H2. simpl in H2.
  eapply argv_enabled_default; [exact Hret|]. rewrite Hke.
  destruct (Option.priority o1 <=? Option.priority o2).
  - destruct H2 as (w2 & Hw2 & Hkd & _). by injection Hw2 as <-.
  - destruct H2 as [Hkd _]. congruence.
Qed.

Lemma argv_list_options_accumulate_witness :
  Modules_argv example_runtime [Filter] Filter ["--include"; "a"; "--only"; "b"]
  = Ok (<["enabled" := VBool false]>
          (<["patterns" := VList [VStr "a"; VStr "b"]]> ∅))
  /\ (<["enabled" := VBool false]>
        (<["patterns" := VList [VStr "a"; VStr "b"]]> ∅) : gmap string pyval)
       !! "patterns" = Some (VList [VStr "a"; VStr "b"]).
Proof.
  assert (Modules_argv example_runtime [Filter] Filter
            ["--include"; "a"; "--only"; "b"]
          = Ok (<["enabled" := VBool false]>
                  (<["patterns" := VList [VStr "a"; VStr "b"]]> ∅)))
    as Hargv by reflexivity.
  split; [exact Hargv|].
  apply (argv_list_options_accumulate
           example_runtime [Filter] Filter ["--include"; "a"; "--only"; "b"]
           (<["only" := VStr "b"]> (<["include" := VStr "a"]> ∅)) []
           [] [] [] opt_include opt_only "patterns" VNone VNone
           (VStr "a") (VStr "b")).
  - reflexivity.
  - reflexivity.
  - simpl. constructor.
  - reflexivity.
  - reflexivity.
  - reflexivity.
  - reflexivity.
  - reflexivity.
  - reflexivity.
  - apply NoDup_singleton.
  - apply NoDup_singleton.
  - apply list_elem_of_here.
  - apply list_elem_of_here.
  - exact Hargv.
Defined.

(** ** [Modules.kwargs]: what it leaves alone, and applying it twice *)

Lemma Instance_eq (a b : Instance) :
  same_bookkeeping a b -> attrs b = attrs a -> b = a.
Proof.
  destruct a, b. unfold same_bookkeeping. simpl.
  intros (-> & -> & -> & -> & -> & ->) ->. reflexivity.
Qed.

Lemma same_bookkeeping_refl self : same_bookkeeping self self.
Proof. by repeat split. Qed.

Lemma same_bookkeeping_trans a b c :
  same_bookkeeping a b -> same_bookkeeping b c -> same_bookkeeping a c.
Proof.
  unfold same_bookkeeping. intros (?&?&?&?&?&?) (?&?&?&?&?&?).
  repeat split; congruence.
Qed.

Lemma setattr_bookkeeping self k v : same_bookkeeping self (setattr self k v).
Proof. by repeat split. Qed.

Section KwargsFrame.
Context (m : ModuleClass) (kwargs : gmap string pyval).

Lemma kwargs_assign_lookup self x k :
  attrs (kwargs_assign kwargs self x) !! k
  = if decide (Kwarg.name x = k)
    then Some (match kwargs !! Kwarg.name x with
               | Some v => v
               | None => Kwarg.default x
               end)
    else attrs self !! k.
Proof.
  unfold kwargs_assign, setattr. simpl. destruct (decide (Kwarg.name x = k)) as [->|Hne].
  - apply lookup_insert_eq.
  - by apply lookup_insert_ne.
Qed.

Lemma declared_loop_bookkeeping (declared : list Kwarg.t) self :
  same_bookkeeping self (foldl (kwargs_assign kwargs) self declared).
Proof.
  induction declared as [|x l IH] using rev_ind; [apply same_bookkeeping_refl|].
  rewrite foldl_app. simpl. eapply same_bookkeeping_trans; [exact IH|].
  apply setattr_bookkeeping.
Qed.

Lemma attach_loop_bookkeeping self :
  same_bookkeeping self (map_fold (kwargs_attach m) self kwargs).
Proof.
  apply (map_fold_weak_ind (fun r (_ : gmap string pyval) => same_bookkeeping self r)).
  - apply same_bookkeeping_refl.
  - intros i x seen r _ IH. unfold kwargs_attach.
    destruct (hasattr m r i); [done|].
    eapply same_bookkeeping_trans; [exact IH|apply setattr_bookkeeping].
Qed.

(** A declared name is set by the first loop, to a value that does not
    depend on the instance. *)
Lemma declared_loop_sets (declared : list Kwarg.t) self self' k :
  k ∈ Kwarg.name <$> declared ->
  is_Some (attrs (foldl (kwargs_assign kwargs) self declared) !! k)
  /\ attrs (foldl (kwargs_assign kwargs) self declared) !! k
     = attrs (foldl (kwargs_assign kwargs) self' declared) !! k.
Proof.
  induction declared as [|x l IH] using rev_ind; intros Hin.
  - by apply elem_of_nil in Hin.
  - rewrite !foldl_app. cbn [foldl]. rewrite !kwargs_assign_lookup.
    destruct (decide (Kwarg.name x = k)) as [->|Hne].
    + split; [by eexists|done].
    + apply IH.
      rewrite fmap_app in Hin. apply elem_of_app in Hin as [Hin|Hin]; [done|].
      apply list_elem_of_singleton in Hin. by subst.
Qed.
End KwargsFrame.



(** X7: processing the same keyword arguments a second time changes
    nothing. *)
Theorem kwargs_twice_is_once
    (m : ModuleClass) (self self' : Instance) (kwargs : gmap string pyval) :
  Modules_kwargs m self kwargs = Ok self' ->
  Modules_kwargs m self' kwargs = Ok self'.
Proof.
  unfold Modules_kwargs. destruct (KWARGS m) as [declared|]; [|done].
  intros [= <-]. f_equal.
  set (s1 := map_fold (kwargs_attach m)
               (foldl (kwargs_assign kwargs) self declared) kwargs).
  apply Instance_eq.
  - eapply same_bookkeeping_trans;
      [apply declared_loop_bookkeeping|apply attach_loop_bookkeeping].
  - apply map_eq. intros k. rewrite attach_loop.
    destruct (decide (k ∈ Kwarg.name <$> declared)) as [Hin|Hnotin].
    + destruct (declared_loop_sets kwargs declared s1 self k Hin) as [[w Hw] Heq].
      rewrite Hw. rewrite Heq in Hw. unfold s1. rewrite attach_loop. by rewrite Hw.
    + rewrite (declared_loop_other kwargs declared s1 k Hnotin).
      destruct (attrs s1 !! k) as [x|] eqn:Hs1; [done|].
      unfold s1 in Hs1. rewrite attach_loop in Hs1.
      rewrite (declared_loop_other kwargs declared self k Hnotin) in Hs1.
      destruct (attrs self !! k); [done|].
      by destruct (has_class_attr m k).
Qed.

Lemma kwargs_twice_is_once_witness :
  Modules_kwargs Signature
    (setattr (setattr (setattr (Module_new Signature 0) "align" (VInt 4))
                "verbose" (VBool false)) "extra" (VStr "x"))
    (<["align" := VInt 4]> (<["extra" := VStr "x"]> ∅))
  = Ok (setattr (setattr (setattr (Module_new Signature 0) "align" (VInt 4))
                   "verbose" (VBool false)) "extra" (VStr "x")).
Proof.
  apply (kwargs_twice_is_once Signature (Module_new Signature 0)).
  reflexivity.
Defined.

(** ** The life cycle: [Module.__init__] and [Module.main] *)


(** X9: the two plugin hooks of [Module.main] are outside its [try]
    statements: an exception of the pre-scan hook leaves [main] without
    being recorded and without [run] being called, even when it is an
    instance of [Exception]; an exception of the post-scan hook leaves
    [main] although [run] has returned. *)
Theorem main_plugin_exceptions_propagate
    (m : ModuleClass) (status : Status) (self s1 s2 : Instance) (e : exn) :
  init m (set_status (Some status) self) = (Ok (), s1) ->
  display_send [FormatStrings (HEADER_FORMAT m) (RESULT_FORMAT m)] s1
  = (Ok (), s2) ->
  (forall s3,
     plugins_pre_scan_callbacks m s2 = (Raise e, s3) ->
     Module_main m status self
     = (Raise e, s3, [PInit; PFormatStrings; PPreScan]))
  /\ (forall s3 s4 s5 retval,
        plugins_pre_scan_callbacks m s2 = (Ok (), s3) ->
        run m s3 = (Ok retval, s4) ->
        plugins_post_scan_callbacks m s4 = (Raise e, s5) ->
        Module_main m status self
        = (Raise e, s5, [PInit; PFormatStrings; PPreScan; PRun; PPostScan])).
Proof.
  intros Hinit Hfmt. split.
  - intros s3 Hpre. unfold Module_main. rewrite Hinit. simpl.
    rewrite Hfmt. simpl. by rewrite Hpre.
  - intros s3 s4 s5 retval Hpre Hrun Hpost. unfold Module_main.
    rewrite Hinit. simpl. rewrite Hfmt. simpl. rewrite Hpre, Hrun. simpl.
    by rewrite Hpost.
Qed.

Lemma main_plugin_exceptions_propagate_witness :
  Module_main (FailingPreScan (Exception "plugin")) zero_status
    (configured (FailingPreScan (Exception "plugin")))
  = (Raise (Exception "plugin"),
     set_display [FormatStrings "%s\n" "%.8d      %s\n"]
       (set_status (Some zero_status)
          (configured (FailingPreScan (Exception "plugin")))),
     [PInit; PFormatStrings; PPreScan]).
Proof.
  destruct (main_plugin_exceptions_propagate
              (FailingPreScan (Exception "plugin")) zero_status
              (configured (FailingPreScan (Exception "plugin")))
              (set_status (Some zero_status)
                 (configured (FailingPreScan (Exception "plugin"))))
              (set_display [FormatStrings "%s\n" "%.8d      %s\n"]
                 (set_status (Some zero_status)
                    (configured (FailingPreScan (Exception "plugin")))))
              (Exception "plugin"))
    as [Hpre _]; [reflexivity|reflexivity|].
  apply Hpre. reflexivity.
Defined.



(** ** [Module.result] and [Module._build_display_args] *)

Lemma run_chain_prefix chain r o calls :
  run_chain chain r = (o, calls) -> calls.*1 `prefix_of` chain.*1.
Proof.
  revert r o calls. induction chain as [|[p f] chain IH]; intros r o calls; simpl.
  - intros [= _ <-]. by exists [].
  - destruct (f r) as [r1|e].
    + destruct (run_chain chain r1) as [o1 calls1] eqn:E.
      intros [= _ <-]. simpl. apply prefix_cons. by eapply IH.
    + intros [= _ <-]. simpl. apply prefix_cons, prefix_nil.
Qed.

(** A chain with a participant that always raises never runs through. *)
Lemma run_chain_raiser chain p f :
  (p, f) ∈ chain -> (forall x, exists e, f x = Raise e) ->
  forall r, exists e calls, run_chain chain r = (Raise e, calls).
Proof.
  intros Hin Hraise. induction chain as [|[q g] chain IH]; intros r.
  - by apply elem_of_nil in Hin.
  - simpl. destruct (g r) as [r1|e] eqn:Eg; [|by eexists _, _].
    apply elem_of_cons in Hin as [ [= -> ->] | Hin].
    + destruct (Hraise r) as [e He]. congruence.
    + destruct (IH Hin r1) as (e & calls & Hr). rewrite Hr. by eexists _, _.
Qed.




Lemma display_send_frame c self o self' :
  display_send c self = (o, self') ->
  results self' = results self /\ attrs self' = attrs self
  /\ errors self' = errors self /\ status self' = status self
  /\ (display self' = display self \/ display self' = display self ++ c).
Proof.
  unfold display_send. destruct (attrs self !! "config") as [[]|];
    intros [= _ <-]; simpl; auto 10.
Qed.




(** X13: [Module.result] leaves the progress of a module that tracks it
    itself alone (a non-zero [total] is never overwritten); for a module
    that does not, a stored [Result] with a file sets [total] to the length
    of the file and [completed] to the distance read from its origin. *)
Theorem result_progress
    (modules : list ModuleClass) (m : ModuleClass) (r : option Result)
    (kwargs : gmap string pyval) (self self' : Instance) (o : outcome unit)
    (calls : list (participant * Result)) (st : Status) :
  Module_result modules m r kwargs self = (o, self', calls) ->
  status self = Some st ->
  (total st <> 0 -> status self' = Some st)
  /\ (total st = 0 ->
      forall r' length tell offset,
        results self' = results self ++ [r'] ->
        r' !! "file" = Some (VFile length tell offset) ->
        status self' = Some {| completed := tell - offset; total := length |}).
Proof.
  unfold Module_result. intros Hres Hst.
  destruct (DEPENDS m) as [depends|].
  2:{ destruct (validate m _); injection Hres as _ <- _; (split; [done|]);
      intros _ r' ? ? ? Happ; apply (f_equal (@List.length _)) in Happ;
      rewrite length_app in Happ; simpl in Happ; lia. }
  destruct (run_chain _ _) as [[r1|e] calls'].
  2:{ injection Hres as _ <- _; split; [done|].
      intros _ r' ? ? ? Happ. apply (f_equal (@List.length _)) in Happ.
      rewrite length_app in Happ. simpl in Happ. lia. }
  unfold store_and_display in Hres.
  destruct (attr_truthy r1 "valid") as [[]|].
  2,3: injection Hres as _ <- _; (split; [done|]);
       intros _ r' ? ? ? Happ; apply (f_equal (@List.length _)) in Happ;
       rewrite length_app in Happ; simpl in Happ; lia.
  assert (exists o1 s1,
            update_progress r1 (set_results (results self ++ [r1]) self) = (o1, s1)
            /\ results self' = results self ++ [r1]
            /\ status self' = status s1) as (o1 & s1 & Hprog & Hstored & Hsame).
  { destruct (update_progress r1 _) as [o1 s1] eqn:Hprog.
    exists o1, s1. split; [done|].
    pose proof (update_progress_frame _ _ _ _ Hprog) as (Hr & _ & _ & _).
    simpl in Hr.
    destruct o1 as [[]|e]; [|by injection Hres as _ <- _].
    destruct (attr_truthy r1 "display") as [[]|];
      [|by injection Hres as _ <- _..].
    destruct (build_display_args m r1) as [[|a args]|e];
      [by injection Hres as _ <- _| |by injection Hres as _ <- _].
    destruct (display_send _ s1) as [o3 s3] eqn:Hsend.
    apply display_send_frame in Hsend as (Hr3 & _ & _ & Hs3 & _).
    injection Hres as _ <- _. split; congruence. }
  rewrite Hsame. unfold update_progress in Hprog. simpl in Hprog.
  rewrite Hst in Hprog. split.
  - intros Hmanual. apply Z.eqb_neq in Hmanual. rewrite Hmanual in Hprog.
    destruct (r1 !! "file") as [f|]; [|by injection Hprog as _ <-].
    destruct (py_truthy f); by injection Hprog as _ <-.
  - intros Hzero r' length tell offset Happ Hfile.
    rewrite Hstored in Happ. apply app_inj_tail in Happ as [_ <-].
    rewrite Hfile in Hprog. simpl in Hprog.
    apply Z.eqb_eq in Hzero. rewrite Hzero in Hprog.
    by injection Hprog as _ <-.
Qed.

Lemma result_progress_witness :
  status (set_display [DisplayResult [VInt 0; VStr ""]]
            (set_status (Some {| completed := 1024 - 512; total := 4096 |})
               (set_results [<["valid" := VBool true]> file_result]
                  (wired Plain))))
  = Some {| completed := 1024 - 512; total := 4096 |}.
Proof.
  destruct (result_progress [Extractor; Plain] Plain (Some file_result) ∅
              (wired Plain)
              (set_display [DisplayResult [VInt 0; VStr ""]]
                 (set_status (Some {| completed := 1024 - 512; total := 4096 |})
                    (set_results [<["valid" := VBool true]> file_result]
                       (wired Plain))))
              (Ok ())
              [(Validate, file_result);
               (Callback "extractor", <["valid" := VBool true]> file_result);
               (PluginsResult, <["valid" := VBool true]> file_result)]
              zero_status) as [_ Hderived].
  - reflexivity.
  - reflexivity.
  - apply (Hderived eq_refl (<["valid" := VBool true]> file_result) 4096 1024 512);
      reflexivity.
Defined.

Lemma display_args_loop (r : Result) (names : list pyval) :
  forall acc args,
    for_each (fun name args =>
                match name with
                | VStr n =>
                    match r !! n with
                    | Some v => Ok (args ++ [v])
                    | None => Raise AttributeError
                    end
                | _ => Raise TypeError
                end) names acc = Ok args ->
    exists vs, args = acc ++ vs
      /\ Forall2 (fun name v => exists n, name = VStr n /\ r !! n = Some v) names vs.
Proof.
  induction names as [|name names IH]; intros acc args; simpl.
  - intros [= <-]. exists []. by rewrite app_nil_r.
  - destruct name as [| | | |n| | | |]; try done.
    destruct (r !! n) as [v|] eqn:Hv; [|done].
    intros Hrun. destruct (IH _ _ Hrun) as (vs & -> & Hall).
    exists (v :: vs). rewrite <- app_assoc. split; [done|].
    constructor; [by exists n|done].
Qed.

(** X14: the row [Module._build_display_args] builds holds the attributes
    of the [Result] that [RESULT] names, one for each name and in the order
    of [RESULT]; an empty [RESULT] gives an empty row. *)
Theorem display_args_follow_RESULT
    (m : ModuleClass) (r : Result) (names args : list pyval) :
  RESULT m = VList names ->
  build_display_args m r = Ok args ->
  Forall2 (fun name v => exists n, name = VStr n /\ r !! n = Some v) names args.
Proof.
  intros HR. unfold build_display_args. rewrite HR. simpl.
  destruct names as [|name names]; [by intros [= <-]|].
  intros Hrun. destruct (display_args_loop r _ _ _ Hrun) as (vs & -> & Hall).
  exact Hall.
Qed.

Lemma display_args_follow_RESULT_witness :
  Forall2 (fun name v => exists n, name = VStr n /\ file_result !! n = Some v)
    [VStr "offset"; VStr "description"] [VInt 0; VStr ""].
Proof.
  apply (display_args_follow_RESULT Plain file_result); reflexivity.
Defined.

(** ** The cache of the orchestrator *)

Section Cache.
Context (rt : Runtime) (modules : list ModuleClass).

(** The loop of [dependencies], for a [run] that keeps the cache: cached
    instances stay, and every keyword argument bound is a cached instance
    without errors. *)
Lemma dependencies_loop_keeps_cache run module all depends :
  run_keeps_cache run ->
  forall kwargs self o self',
    (forall k v, kwargs !! k = Some v ->
                 bound_dependency modules module all self k v) ->
    (forall entry, entry ∈ depends -> entry ∈ all) ->
    dependencies_loop modules run module depends kwargs self = Some (o, self') ->
    arguments self' = arguments self
    /\ (forall n obj, loaded_modules self !! n = Some obj ->
                      loaded_modules self' !! n = Some obj)
    /\ (forall kwargs', o = Ok kwargs' ->
          forall k v, kwargs' !! k = Some v ->
                      bound_dependency modules module all self' k v).
Proof.
  intros Hrun. induction depends as [|[kwarg dname] depends IH];
    intros kwargs self o self' Hbound Hsub; cbn [dependencies_loop].
  - intros [= <- <-]. split; [done|]. split; [done|].
    intros kwargs' [= <-]. exact Hbound.
  - assert (forall s1, (forall n obj, loaded_modules self !! n = Some obj ->
                                      loaded_modules s1 !! n = Some obj) ->
            forall k v, kwargs !! k = Some v ->
                        bound_dependency modules module all s1 k v) as Hmove.
    { intros s1 Hkeep k v Hkv.
      destruct (Hbound k v Hkv) as (d & dep & obj & ? & ? & ? & Hobj & ? & ?).
      exists d, dep, obj. repeat split; try done. by apply Hkeep. }
    assert (forall entry, entry ∈ depends -> entry ∈ all) as Hsub'
      by (intros entry Hin; by apply Hsub, list_elem_of_further).
    unfold dependencies_step.
    destruct (lookup_module modules dname) as [dependency|] eqn:Hlookup;
      [|by apply IH].
    destruct (String.eqb_spec (__name__ dependency) (__name__ module)) as [|Hne];
      [by apply IH|].
    destruct (loaded_modules self !! __name__ dependency) as [cached|] eqn:Hcached.
    + rewrite Hcached. destruct (errors cached) eqn:Herr.
      * apply IH; [|done]. intros k v Hkv.
        destruct (decide (kwarg = k)) as [<-|Hk].
        -- rewrite lookup_insert_eq in Hkv. injection Hkv as <-.
           exists dname, dependency, cached. repeat split; try done.
           apply Hsub, list_elem_of_here.
        -- rewrite lookup_insert_ne in Hkv by done. by apply Hbound.
      * intros [= <- <-]. split; [done|]. split; [done|]. by intros kwargs' [=].
    + destruct (run dependency self) as [[[obj|e] s1]|] eqn:Hcall; [| |done].
      * destruct (Hrun _ _ _ _ Hcall) as (Hargs & Hkeep & Hobj).
        rewrite (Hobj obj eq_refl).
        assert (forall n x, loaded_modules self !! n = Some x ->
                            loaded_modules s1 !! n = Some x) as Hkeep1.
        { intros n x Hn. apply Hkeep; [|done]. intros ->. congruence. }
        destruct (errors obj) eqn:Herr.
        -- intros Hloop.
           destruct (IH (<[kwarg := VObj (name obj) (obj_id obj)]> kwargs) s1 o self')
             as (Ha & Hk & Hb); [|done|done|].
           { intros k v Hkv. destruct (decide (kwarg = k)) as [<-|Hk].
             - rewrite lookup_insert_eq in Hkv. injection Hkv as <-.
               exists dname, dependency, obj. repeat split; try done.
               + apply Hsub, list_elem_of_here.
               + by apply Hobj.
             - rewrite lookup_insert_ne in Hkv by done. by apply Hmove. }
           split; [congruence|]. split; [|done].
           intros n x Hn. by apply Hk, Hkeep1.
        -- intros [= <- <-]. split; [done|]. split; [done|]. by intros kwargs' [=].
      * destruct (Hrun _ _ _ _ Hcall) as (Hargs & Hkeep & _).
        intros [= <- <-]. split; [done|]. split; [|by intros kwargs' [=]].
        intros n x Hn. apply Hkeep; [|done]. intros ->. congruence.
Qed.

Lemma Modules_run_keeps_cache fuel :
  run_keeps_cache (Modules_run rt modules fuel).
Proof.
  induction fuel as [|fuel IH]; intros module self o self'; [done|].
  cbn [Modules_run]. unfold load_with.
  destruct (Modules_argv rt modules module (arguments self)) as [kw|e];
    [|intros [= <- <-]; split; [done|]; split; [done|by intros obj [=]]].
  destruct (dependencies_with modules (Modules_run rt modules fuel) module self)
    as [[[deps|e] s1]|] eqn:Hdeps; [| |done].
  2:{ intros [= <- <-].
      unfold dependencies_with in Hdeps.
      destruct (DEPENDS module) as [depends|]; [|done].
      destruct (dependencies_loop_keeps_cache _ module depends depends IH
                  _ _ _ _ ltac:(by intros k v; rewrite lookup_empty)
                  ltac:(done) Hdeps) as (Ha & Hk & _).
      split; [done|]. split; [|by intros obj [=]].
      intros n obj _. apply Hk. }
  assert (arguments s1 = arguments self
          /\ forall n obj, loaded_modules self !! n = Some obj ->
                           loaded_modules s1 !! n = Some obj) as [Ha Hk].
  { unfold dependencies_with in Hdeps.
    destruct (DEPENDS module) as [depends|]; [|by injection Hdeps as _ <-].
    destruct (dependencies_loop_keeps_cache _ module depends depends IH
                _ _ _ _ ltac:(by intros k v; rewrite lookup_empty)
                ltac:(done) Hdeps) as (Ha & Hk & _).
    by split. }
  unfold construct.
  destruct (Module___init__ module _ (deps ∪ kw)) as [obj|e];
    [|intros [= <- <-]; split; [done|]; split; [|by intros obj [=]];
      intros n obj _; apply Hk].
  destruct (enabled obj) as [[]|e];
    [| |intros [= <- <-]; split; [done|]; split; [|by intros x [=]];
        intros n x _; apply Hk].
  - destruct (Module_main module _ obj) as [[[retval|e] obj'] calls].
    + intros [= <- <-]. split; [done|]. split.
      * intros n x Hne Hn. simpl. rewrite lookup_insert_ne by done. by apply Hk.
      * intros x [= <-]. simpl. apply lookup_insert_eq.
    + intros [= <- <-]. split; [done|]. split; [|by intros x [=]].
      intros n x _. apply Hk.
  - intros [= <- <-]. split; [done|]. split.
    + intros n x Hne Hn. simpl. rewrite lookup_insert_ne by done. by apply Hk.
    + intros x [= <-]. simpl. apply lookup_insert_eq.
Qed.

Lemma run_all_keeps_arguments fuel todo :
  forall self o self',
    run_all rt modules fuel todo self = Some (o, self') ->
    arguments self' = arguments self.
Proof.
  induction todo as [|module todo IH]; intros self o self'; cbn [run_all].
  - by intros [= <- <-].
  - destruct (Modules_run rt modules fuel module self) as [[[obj|e] s1]|] eqn:Hrun;
      [| |done];
      destruct (Modules_run_keeps_cache fuel _ _ _ _ Hrun) as (Ha & _ & _).
    + intros Hall. rewrite (IH _ _ _ Hall). done.
    + by intros [= <- <-].
Qed.

Lemma run_all_cached fuel todo :
  forall self self',
    run_all rt modules fuel todo self = Some (Ok (), self') ->
    forall n, is_Some (loaded_modules self !! n) \/ n ∈ (__name__ <$> todo) ->
              is_Some (loaded_modules self' !! n).
Proof.
  induction todo as [|module todo IH]; intros self self'; cbn [run_all].
  - intros [= <-] n [Hn|Hn]; [done|]. by apply elem_of_nil in Hn.
  - destruct (Modules_run rt modules fuel module self) as [[[obj|e] s1]|] eqn:Hrun;
      [|done|done].
    destruct (Modules_run_keeps_cache fuel _ _ _ _ Hrun) as (_ & Hkeep & Hobj).
    intros Hall n Hn. apply (IH _ _ Hall).
    destruct (decide (n = __name__ module)) as [->|Hne].
    + left. rewrite (Hobj obj eq_refl). by eexists.
    + destruct Hn as [[x Hx]|Hn].
      * left. exists x. by apply Hkeep.
      * right. rewrite fmap_cons in Hn. apply elem_of_cons in Hn as [|]; done.
Qed.
End Cache.

(** X15: [Modules.run(module)] caches the instance it returns under the
    class it ran, replaces the cached instance of no other class, whether
    it returns or raises, and leaves [self.arguments] as they were. *)
Theorem run_caches_what_it_returns rt modules fuel module self o self' :
  Modules_run rt modules fuel module self = Some (o, self') ->
  (forall obj, o = Ok obj -> loaded_modules self' !! __name__ module = Some obj)
  /\ (forall n obj, n ≠ __name__ module ->
        loaded_modules self !! n = Some obj ->
        loaded_modules self' !! n = Some obj)
  /\ arguments self' = arguments self.
Proof.
  intros Hrun.
  destruct (Modules_run_keeps_cache rt modules fuel _ _ _ _ Hrun) as (Ha & Hk & Ho).
  done.
Qed.

Lemma run_caches_what_it_returns_witness :
  loaded_modules
    (set_loaded_modules
       (<["Beta" := Beta_instance 1]> (loaded_modules (after_Broken [])))
       (set_constructed ["Broken"; "Beta"] (after_Broken [])))
    !! "Beta" = Some (Beta_instance 1)
  /\ loaded_modules
       (set_loaded_modules
          (<["Beta" := Beta_instance 1]> (loaded_modules (after_Broken [])))
          (set_constructed ["Broken"; "Beta"] (after_Broken [])))
       !! "Broken" = Some Broken_instance.
Proof.
  destruct (run_caches_what_it_returns example_runtime [Broken; Beta] 1 Beta
              (after_Broken []) (Ok (Beta_instance 1))
              (set_loaded_modules
                 (<["Beta" := Beta_instance 1]> (loaded_modules (after_Broken [])))
                 (set_constructed ["Broken"; "Beta"] (after_Broken []))))
    as (Hown & Hother & _).
  - reflexivity.
  - split.
    + by apply Hown.
    + apply Hother; [discriminate|reflexivity].
Defined.


Lemma dependencies_loop_passes_over modules run module depends :
  omap (resolve_entry modules module) depends = [] ->
  forall kwargs self,
    dependencies_loop modules run module depends kwargs self = Some (Ok kwargs, self).
Proof.
  induction depends as [|[kwarg dname] depends IH]; intros Hnone kwargs self;
    cbn [dependencies_loop]; [done|].
  change (omap (resolve_entry modules module) ((kwarg, dname) :: depends))
    with (match resolve_entry modules module (kwarg, dname) with
          | Some n => n :: omap (resolve_entry modules module) depends
          | None => omap (resolve_entry modules module) depends
          end) in Hnone.
  unfold dependencies_step. unfold resolve_entry in Hnone at 1. simpl in Hnone.
  destruct (lookup_module modules dname) as [dependency|]; [|by apply IH].
  destruct (String.eqb (__name__ dependency) (__name__ module)); [by apply IH|done].
Qed.

(** X16: entries of [DEPENDS] that name the class itself, or no class of
    [binwalk.modules], are passed over: when no entry resolves to another
    class, [Modules.dependencies] returns no keyword argument, runs
    nothing and leaves the orchestrator as it was. *)
Theorem dependencies_pass_over_self_and_unknown rt modules fuel module self :
  resolved_dependencies modules module = [] ->
  Modules_dependencies rt modules fuel module self = Some (Ok ∅, self).
Proof.
  unfold resolved_dependencies, Modules_dependencies, dependencies_with.
  destruct (DEPENDS module) as [depends|]; [|done]. simpl.
  intros Hnone. by apply dependencies_loop_passes_over.
Qed.

Lemma dependencies_pass_over_self_and_unknown_witness :
  Modules_dependencies example_runtime [Selfish; Beta] 0 Selfish fresh_Modules
  = Some (Ok ∅, fresh_Modules).
Proof.
  apply dependencies_pass_over_self_and_unknown. reflexivity.
Defined.



(** ** [Modules.execute] *)

(** X18: [Modules.execute] puts [self.arguments] back when it returns;
    when it raises, the arguments it was called with stay in force. *)
Theorem execute_restores_arguments rt modules fuel args kwargs self o self' :
  Modules_execute rt modules fuel args kwargs self = Some (o, self') ->
  arguments self'
  = match o with
    | Ok _ => arguments self
    | Raise _ => arguments (execute_arguments rt args kwargs self)
    end.
Proof.
  unfold Modules_execute.
  destruct (run_all rt modules fuel modules (execute_arguments rt args kwargs self))
    as [[[[]|e] s1]|] eqn:Hall; [| |done].
  - destruct (for_each _ _ _) as [run_modules|e].
    + by intros [= <- <-].
    + intros [= <- <-]. by eapply run_all_keeps_arguments.
  - intros [= <- <-]. by eapply run_all_keeps_arguments.
Qed.

Lemma execute_restores_arguments_witness :
  arguments (after_Broken ["--zeta"]) = ["--zeta"]
  /\ arguments fresh_Modules = [].
Proof.
  split; [|reflexivity].
  apply (execute_restores_arguments example_runtime [Broken; Client; Zeta] 1
           ["--zeta"] [] fresh_Modules
           (Raise (DependencyError "Failed to load Broken"))
           (after_Broken ["--zeta"])).
  reflexivity.
Defined.

Lemma enabled_sweep (l : list (string * Instance)) :
  forall acc run_modules,
    for_each (fun mo run_modules =>
                b ← enabled mo.2;
                Ok (if b : bool then run_modules ++ [mo.2] else run_modules))
             l acc = Ok run_modules ->
    forall obj, obj ∈ run_modules
                <-> obj ∈ acc \/ (enabled obj = Ok true /\ exists n, (n, obj) ∈ l).
Proof.
  induction l as [|[n x] l IH]; intros acc run_modules; simpl.
  - intros [= <-] obj. split; [by left|].
    intros [|(_ & ? & Hin)]; [done|]. by apply elem_of_nil in Hin.
  - destruct (enabled x) as [[]|e] eqn:Hx; simpl; [| |done].
    + intros Hrest obj. rewrite (IH _ _ Hrest obj), elem_of_app, list_elem_of_singleton.
      split.
      * intros [[?| ->]|(? & m & ?)].
        -- by left.
        -- right. split; [done|]. exists n. apply list_elem_of_here.
        -- right. split; [done|]. exists m. by apply list_elem_of_further.
      * intros [|(He & m & Hin)]; [by left; left|].
        apply elem_of_cons in Hin as [ [= -> ->] | Hin].
        -- left. by right.
        -- right. split; [done|]. by exists m.
    + intros Hrest obj. rewrite (IH _ _ Hrest obj). split.
      * intros [|(? & m & ?)]; [by left|].
        right. split; [done|]. exists m. by apply list_elem_of_further.
      * intros [|(He & m & Hin)]; [by left|].
        apply elem_of_cons in Hin as [ [= -> ->] | Hin]; [congruence|].
        right. split; [done|]. by exists m.
Qed.

(** X19: when [Modules.execute] returns, every class of [self.list()] has
    a cached instance, and the list returned holds exactly the cached
    instances whose [enabled] is true, whether [execute] ran them in this
    call or found them cached. *)
Theorem execute_returns_the_enabled_instances
    rt modules fuel args kwargs self run_modules self' :
  Modules_execute rt modules fuel args kwargs self = Some (Ok run_modules, self') ->
  (forall module, module ∈ modules ->
                  is_Some (loaded_modules self' !! __name__ module))
  /\ (forall obj, obj ∈ run_modules
                  <-> enabled obj = Ok true
                      /\ exists n, loaded_modules self' !! n = Some obj).
Proof.
  unfold Modules_execute.
  destruct (run_all rt modules fuel modules (execute_arguments rt args kwargs self))
    as [[[[]|e] s1]|] eqn:Hall; [|done|done].
  destruct (for_each _ _ _) as [found|e] eqn:Hsweep; [|done].
  intros [= <- <-]. simpl. split.
  - intros module Hin. eapply run_all_cached; [exact Hall|].
    right. apply list_elem_of_fmap. by exists module.
  - intros obj. rewrite (enabled_sweep _ _ _ Hsweep obj). split.
    + intros [Hin|(He & n & Hin)]; [by apply elem_of_nil in Hin|].
      split; [done|]. exists n. by apply elem_of_map_to_list in Hin.
    + intros (He & n & Hn). right. split; [done|]. exists n.
      by apply elem_of_map_to_list.
Qed.


Lemma execute_returns_the_enabled_instances_witness :
  is_Some (loaded_modules after_Beta_Zeta !! "Beta")
  /\ enabled (Zeta_instance 1) = Ok true
  /\ exists n, loaded_modules after_Beta_Zeta !! n = Some (Zeta_instance 1).
Proof.
  destruct (execute_returns_the_enabled_instances example_runtime [Beta; Zeta] 1
              ["--zeta"] [] fresh_Modules [Zeta_instance 1] after_Beta_Zeta)
    as [Hcached Hreturned].
  - reflexivity.
  - split.
    + apply (Hcached Beta), list_elem_of_here.
    + apply Hreturned, list_elem_of_here.
Defined.

(** ** The arguments of the orchestrator *)

Lemma string_prefix_empty (s : string) : String.prefix "" s = true.
Proof. by destruct s. Qed.

Lemma string_prefix_append (p : string) :
  forall s t, String.prefix p s = true -> String.prefix p (String.append s t) = true.
Proof.
  induction p as [|a p IH]; intros s t.
  - intros _. apply string_prefix_empty.
  - destruct s as [|b s]; [done|].
    change (String.append (String b s) t) with (String b (String.append s t)).
    simpl. destruct (Ascii.ascii_dec a b); [apply IH|done].
Qed.

Lemma parse_api_opt_prefix (opt : string) :
  String.prefix "-" (Modules_parse_api_opt opt) = true.
Proof.
  unfold Modules_parse_api_opt.
  destruct (String.prefix "-" opt) eqn:Hopt; [done|].
  destruct (Nat.eqb (String.length opt) 1); simpl; [apply string_prefix_empty|done].
Qed.

Lemma set_arguments_tokens rt (kargv : list (string * pyval)) :
  forall argv : list string,
    foldl (fun argv kv =>
             let k := Modules_parse_api_opt kv.1 in
             if in_True_False_None kv.2 then argv ++ [k]
             else argv ++ [String.append k (String.append " " (py_str rt kv.2))])
          argv kargv
    = argv ++ (keyword_token rt <$> kargv).
Proof.
  induction kargv as [|kv kargv IH]; intros argv; simpl.
  - by rewrite app_nil_r.
  - rewrite IH. unfold keyword_token at 2.
    destruct (in_True_False_None kv.2); by rewrite <- app_assoc.
Qed.

Lemma keyword_token_hyphen rt kv :
  String.prefix "-" (keyword_token rt kv) = true.
Proof.
  unfold keyword_token.
  pose proof (parse_api_opt_prefix kv.1) as Hk.
  destruct (in_True_False_None kv.2); [done|].
  by apply string_prefix_append.
Qed.

(** X20: when [Modules._set_arguments] is given any token or keyword, the
    arguments become the tokens followed by exactly one token for each
    keyword (a value makes no token of its own), and each of these starts
    with a hyphen. *)
Theorem set_arguments_one_token_per_keyword rt argv kargv self :
  argv ≠ [] \/ kargv ≠ [] ->
  argv `prefix_of` arguments (Modules_set_arguments rt argv kargv self)
  /\ List.length (arguments (Modules_set_arguments rt argv kargv self))
     = (List.length argv + List.length kargv)%nat
  /\ Forall (fun token => String.prefix "-" token = true)
       (drop (List.length argv)
             (arguments (Modules_set_arguments rt argv kargv self))).
Proof.
  intros Hgiven. unfold Modules_set_arguments. rewrite set_arguments_tokens.
  assert (arguments
            match argv ++ (keyword_token rt <$> kargv), arguments self with
            | [], [] => set_arguments (sys_argv rt) self
            | [], _ => self
            | _, _ => set_arguments (argv ++ (keyword_token rt <$> kargv)) self
            end
          = argv ++ (keyword_token rt <$> kargv)) as ->.
  { destruct argv as [|a argv]; [|done].
    destruct kargv as [|kv kargv]; [by destruct Hgiven|done]. }
  split; [by apply prefix_app_r|]. split.
  - by rewrite length_app, length_fmap.
  - rewrite drop_app_length. apply Forall_fmap, Forall_forall.
    intros kv _. apply keyword_token_hyphen.
Qed.

Lemma set_arguments_one_token_per_keyword_witness :
  ["firmware.bin"]
    `prefix_of` arguments (Modules_set_arguments example_runtime ["firmware.bin"]
                             [("signature", VBool true); ("length", VStr "16")]
                             fresh_Modules)
  /\ List.length (arguments (Modules_set_arguments example_runtime ["firmware.bin"]
                               [("signature", VBool true); ("length", VStr "16")]
                               fresh_Modules))
     = 3%nat.
Proof.
  destruct (set_arguments_one_token_per_keyword example_runtime ["firmware.bin"]
              [("signature", VBool true); ("length", VStr "16")] fresh_Modules)
    as (Hprefix & Hlength & _).
  - left. discriminate.
  - split; [exact Hprefix|exact Hlength].
Defined.

(** ** The help text *)

Lemma string_length_append (s1 s2 : string) :
  String.length (String.append s1 s2) = (String.length s1 + String.length s2)%nat.
Proof. induction s1 as [|a s1 IH]; simpl; [done|by rewrite IH]. Qed.

Lemma spaces_length (n : nat) : String.length (spaces n) = n.
Proof. induction n as [|n IH]; simpl; [done|by rewrite IH]. Qed.

Lemma ljust_length (width : nat) (s : string) :
  String.length (ljust width s) = Nat.max width (String.length s).
Proof. unfold ljust. rewrite string_length_append, spaces_length. lia. Qed.

Lemma string_append_assoc (s1 s2 s3 : string) :
  String.append (String.append s1 s2) s3 = String.append s1 (String.append s2 s3).
Proof.
  induction s1 as [|a s1 IH]; [done|].
  change (String a (String.append (String.append s1 s2) s3)
          = String a (String.append s1 (String.append s2 s3))).
  by rewrite IH.
Qed.

(** X21: in the help text, the description of an option whose long name
    has at most 30 characters and whose short name is one character or
    missing starts in column 40 whenever the long name and the argument
    part fit into 32 characters; it moves to the right by as much as they
    do not fit. *)
Theorem help_description_column (o : Option.t) :
  Option.long o ≠ "" ->
  (String.length (Option.long o) <= 30)%nat ->
  (String.length (Option.short o) <= 1)%nat ->
  exists lead,
    help_option o
    = String.append lead (String.append (Option.description o) newline)
    /\ String.length lead
       = (40 + ((2 + String.length (Option.long o)
                 + String.length (help_optargs o)) - 32))%nat.
Proof.
  intros Hlong Hfits Hshort. unfold help_option.
  destruct (String.eqb_spec (Option.long o) "") as [|_]; [done|].
  exists (String.append "    "
            (String.append
               (if String.eqb (Option.short o) "" then "   "
                else String.append "-" (String.append (Option.short o) ","))
               (String.append " "
                  (String.append (String.append "--" (Option.long o))
                     (ljust (Z.abs_nat (32 - Z.of_nat (String.length
                                                         (String.append "--" (Option.long o)))))
                            (help_optargs o)))))).
  split.
  - by rewrite !string_append_assoc.
  - rewrite !string_length_append, ljust_length.
    assert (String.length
              (if String.eqb (Option.short o) "" then "   "
               else String.append "-" (String.append (Option.short o) ","))
            = 3%nat) as ->.
    { destruct (String.eqb_spec (Option.short o) "") as [|Hne]; [done|].
      rewrite !string_length_append. simpl.
      destruct (Option.short o) as [|a [|b s]]; simpl in *; [done|done|lia]. }
    simpl. lia.
Qed.

Lemma help_description_column_witness :
  exists lead,
    help_option opt_offset
    = String.append lead (String.append (Option.description opt_offset) newline)
    /\ String.length lead = 40%nat.
Proof.
  destruct (help_description_column opt_offset) as (lead & Hline & Hlength).
  - discriminate.
  - simpl. lia.
  - simpl. lia.
  - exists lead. split; [exact Hline|exact Hlength].
Defined.


